(** * The rollmint block store (store/store.go)

    A shallow embedding of [DefaultStore]: the key derivation functions, the
    in-memory height counter and the save/load operations over a
    transactional key-value datastore, followed by the properties of the
    store that the specification states. *)

From Stdlib Require Import ZArith NArith Ascii String List Lia.
From Stdlib.Strings Require Import Byte.
From stdpp Require Import base decidable option list strings pretty gmap.

Local Open Scope string_scope.
Local Open Scope N_scope.

(** ** Bytes, hashes and text encodings *)

(** Go's [[]byte]. *)
Abbreviation bytes := (list byte).

#[global] Instance byte_eq_dec : EqDecision byte := Byte.byte_eq_dec.

(** Go's [[32]byte]: the length is part of the type. *)
Record Hash32 := mkHash32 {
  hash_bytes : bytes;
  hash_len : length hash_bytes = 32%nat
}.

(** encoding/hex: [const hextable = "0123456789abcdef"]. *)
Definition hextable : string := "0123456789abcdef".

(** [hextable[i]] *)
Definition hextable_at (i : N) : ascii :=
  default "0"%char (String.get (N.to_nat i) hextable).

(** hex.EncodeToString: for each byte [v], [hextable[v>>4]] then
    [hextable[v&0x0f]]. *)
Fixpoint EncodeToString (src : bytes) : string :=
  match src with
  | [] => ""
  | v :: rest =>
      String (hextable_at (N.shiftr (Byte.to_N v) 4))
        (String (hextable_at (N.land (Byte.to_N v) 15))
           (EncodeToString rest))
  end.

(** encoding/hex's [fromHexChar], used here to invert [EncodeToString]. *)
Definition fromHexChar (c : ascii) : option N :=
  let n := N_of_ascii c in
  if (48 <=? n) && (n <=? 57) then Some (n - 48)
  else if (97 <=? n) && (n <=? 102) then Some (n - 97 + 10)
  else if (65 <=? n) && (n <=? 70) then Some (n - 65 + 10)
  else None.

(** hex.DecodeString on well-formed input of even length. *)
Fixpoint DecodeString (s : string) : option bytes :=
  match s with
  | "" => Some []
  | String a (String b rest) =>
      match fromHexChar a, fromHexChar b, DecodeString rest with
      | Some hi, Some lo, Some tl =>
          match Byte.of_N (N.lor (N.shiftl hi 4) lo) with
          | Some v => Some (v :: tl)
          | None => None
          end
      | _, _, _ => None
      end
  | String _ "" => None
  end.

(** The characters of lowercase hexadecimal text: [0-9] and [a-f]. *)
Definition lower_hex (c : ascii) : bool :=
  let n := N_of_ascii c in
  (48 <=? n) && (n <=? 57) || (97 <=? n) && (n <=? 102).

(** The characters of decimal text: [0-9]. *)
Definition decimal_digit (c : ascii) : bool :=
  let n := N_of_ascii c in (48 <=? n) && (n <=? 57).

(** strconv.FormatUint(i, 10): the decimal text of an unsigned integer. *)
Definition FormatUint (i : N) : string := pretty i.

(** fmt's [%v] of a byte array: ["[1 2 3]"]. *)
Fixpoint Sprint_elems (l : bytes) : string :=
  match l with
  | [] => ""
  | [v] => FormatUint (Byte.to_N v)
  | v :: rest => FormatUint (Byte.to_N v) +:+ " " +:+ Sprint_elems rest
  end.

Definition Sprint_bytes (l : bytes) : string := "[" +:+ Sprint_elems l +:+ "]".

(** ** Key derivation *)

Definition blockPrefix : string := "b/".
Definition indexPrefix : string := "i/".
Definition commitPrefix : string := "c/".
Definition statePrefix : string := "s/".
Definition responsesPrefix : string := "r/".
Definition validatorsPrefix : string := "v/".

Definition getBlockKey (hash : Hash32) : string :=
  blockPrefix +:+ EncodeToString (hash_bytes hash).

Definition getCommitKey (hash : Hash32) : string :=
  commitPrefix +:+ EncodeToString (hash_bytes hash).

Definition getIndexKey (height : N) : string :=
  indexPrefix +:+ FormatUint height.

Definition getStateKey : string := statePrefix.

Definition getResponsesKey (height : N) : string :=
  responsesPrefix +:+ FormatUint height.

Definition getValidatorsKey (height : N) : string :=
  validatorsPrefix +:+ FormatUint height.

(** The record classes of the persisted layout, and the key of a record. *)
Inductive record_id :=
| BlockRec (hash : Hash32)
| CommitRec (hash : Hash32)
| IndexRec (height : N)
| StateRec
| ResponsesRec (height : N)
| ValidatorsRec (height : N).

Definition key_of (r : record_id) : string :=
  match r with
  | BlockRec h => getBlockKey h
  | CommitRec h => getCommitKey h
  | IndexRec n => getIndexKey n
  | StateRec => getStateKey
  | ResponsesRec n => getResponsesKey n
  | ValidatorsRec n => getValidatorsKey n
  end.

(** The namespace prefix of a record's class. *)
Definition prefix_of (r : record_id) : string :=
  match r with
  | BlockRec _ => blockPrefix
  | CommitRec _ => commitPrefix
  | IndexRec _ => indexPrefix
  | StateRec => statePrefix
  | ResponsesRec _ => responsesPrefix
  | ValidatorsRec _ => validatorsPrefix
  end.

(** ** Errors *)

(** Go [error] values as the store builds them: [errors.New], a
    [fmt.Errorf("...: %w", err)] wrapper, a [multierr.Append] combination,
    and the datastore's sentinel [ds.ErrNotFound]. *)
Inductive error :=
| ErrNotFound
| errors_New (msg : string)
| fmt_Errorf (msg : string) (wrapped : error)
| multiError (left right : error).

#[global] Instance error_eq_dec : EqDecision error.
Proof. solve_decision. Defined.

(** errors.Is: walks the chain of wrapped errors. *)
Fixpoint errors_Is (err target : error) : bool :=
  if decide (err = target) then true
  else match err with
       | fmt_Errorf _ w => errors_Is w target
       | multiError l r => errors_Is l target || errors_Is r target
       | _ => false
       end.

(** multierr.Append: nil is the unit. *)
Definition multierr_Append (left right : option error) : option error :=
  match left, right with
  | None, _ => right
  | _, None => left
  | Some l, Some r => Some (multiError l r)
  end.

(** The error raised by [loadHashFromIndex] on a malformed index value. *)
Definition errInvalidHashLength : error := errors_New "invalid hash length".

(** The spec's error taxonomy, read off the errors the store returns. *)
Definition is_NotFound (e : error) : bool := errors_Is e ErrNotFound.
Definition is_InvalidHashLength (e : error) : bool :=
  errors_Is e errInvalidHashLength.

Definition decode_messages : list string :=
  [ "failed to unmarshal block data";
    "failed to marshal Commit into object";
    "failed to unmarshal data";
    "failed to unmarshal state from JSON";
    "failed to unmarshal to protobuf" ].

Definition is_DecodeError (e : error) : bool :=
  match e with
  | fmt_Errorf msg _ => bool_decide (msg ∈ decode_messages)
  | _ => false
  end.

(** A load that returns no record and an error of the given kind, and of
    none of the other kinds. *)
Definition fails_NotFound {A} (r : option A * option error) : Prop :=
  ∃ e, r = (None, Some e)
       ∧ is_NotFound e = true
       ∧ is_DecodeError e = false
       ∧ is_InvalidHashLength e = false.

Definition fails_InvalidHashLength {A} (r : option A * option error) : Prop :=
  ∃ e, r = (None, Some e)
       ∧ is_InvalidHashLength e = true
       ∧ is_NotFound e = false
       ∧ is_DecodeError e = false.


(** ** The records the store persists

    The [types], [pb], [tmstate], [tmproto] and [tmtypes] packages are
    consumed through their encode/decode operations only.  A Go call
    returning [(value, error)] is a pair; a pointer result that may be nil is
    an [option].  [Unmarshal]-style methods fill their receiver, so they
    return the receiver as the call left it together with the error. *)

(** encoding.BinaryMarshaler / BinaryUnmarshaler. *)
Class BinaryCodec (T : Type) := {
  MarshalBinary : T → bytes * option error;
  UnmarshalBinary : bytes → T * option error
}.

(** The protobuf [Marshal] / [Unmarshal] pair of generated messages. *)
Class ProtoCodec (T : Type) := {
  Marshal : T → bytes * option error;
  Unmarshal : bytes → T * option error
}.

Class Types := {
  Block : Type;
  Commit : Type;
  State : Type;
  pbState : Type;
  ABCIResponses : Type;
  ValidatorSet : Type;
  pbValidatorSet : Type;
  (** [block.Header.Hash()] and [block.Header.Height] (uint64) *)
  Block_Header_Hash : Block → Hash32;
  Block_Header_Height : Block → N;
  Block_codec :: BinaryCodec Block;
  Commit_codec :: BinaryCodec Commit;
  (** [types.State{}], [state.LastBlockHeight] (int64), [state.ToProto()],
      [state.FromProto(&pbState)] *)
  State_zero : State;
  State_LastBlockHeight : State → Z;
  State_ToProto : State → pbState * option error;
  State_FromProto : pbState → State * option error;
  pbState_codec :: ProtoCodec pbState;
  ABCIResponses_codec :: ProtoCodec ABCIResponses;
  (** [validatorSet.ToProto()] and [tmtypes.ValidatorSetFromProto] *)
  ValidatorSet_ToProto : ValidatorSet → pbValidatorSet * option error;
  ValidatorSetFromProto : pbValidatorSet → option ValidatorSet * option error;
  pbValidatorSet_codec :: ProtoCodec pbValidatorSet
}.

(** Go's conversion [uint64(x)] of an int64: two's complement wrap-around. *)
Definition uint64_of_int64 (x : Z) : N := Z.to_N (x mod 2 ^ 64).

(** ** The key-value engine *)

(** Modelled from the spec: the go-datastore / badger3 engine is an external
    collaborator "exposing get(key), put(key,value), and an atomic
    batch/transaction primitive with put + commit/discard", with
    "all-or-nothing visibility".  What the engine decides on its own is a
    parameter: the normal form [ds.NewKey] gives a key, whether the datastore
    is a [*badger3.Datastore], and which of its writes and transaction
    calls fail with which error (the [n]-th [Put] staged on a transaction is
    numbered from 0).  A [Get] fails on a missing key only, with
    [ds.ErrNotFound]. *)
Class Engine := {
  NewKey : string → string;
  is_badger3 : bool;
  Put_fault : string → bytes → option error;
  NewTransaction_fault : option error;
  txn_Put_fault : nat → string → bytes → option error;
  txn_Commit_fault : option error
}.

(** The calls made on the engine's transaction primitive, oldest first. *)
Inductive txn_call :=
| CallNewTransaction
| CallTxnPut (key : string) (value : bytes)
| CallTxnDiscard
| CallTxnCommit.

#[global] Instance txn_call_eq_dec : EqDecision txn_call.
Proof. solve_decision. Defined.

(** The datastore: the committed key-value pairs, and the record of the
    transaction calls it has received. *)
Record Datastore := mkDatastore {
  kv : gmap string bytes;
  txn_calls : list txn_call
}.

(** An open transaction: the writes staged so far, in order, and the number
    of [Put] calls it has received. *)
Record Txn := mkTxn {
  staged : list (string * bytes);
  puts : nat
}.

Definition log (c : txn_call) (d : Datastore) : Datastore :=
  mkDatastore (kv d) (txn_calls d ++ [c]).

Section Engine.
Context {engine : Engine}.

(** [db.Get]: a missing key is [ds.ErrNotFound]. *)
Definition ds_Get (d : Datastore) (key : string) : bytes * option error :=
  match kv d !! key with
  | Some v => (v, None)
  | None => ([], Some ErrNotFound)
  end.

(** [db.Put]: a single write, visible at once. *)
Definition ds_Put (d : Datastore) (key : string) (value : bytes)
  : Datastore * option error :=
  match Put_fault key value with
  | Some e => (d, Some e)
  | None => (mkDatastore (<[key := value]> (kv d)) (txn_calls d), None)
  end.

(** [badgerDS.NewTransaction(ctx, false)] *)
Definition ds_NewTransaction (d : Datastore)
  : Datastore * Txn * option error :=
  (log CallNewTransaction d, mkTxn [] 0, NewTransaction_fault).

(** [bb.Put]: stages a write; nothing is visible before the commit. *)
Definition txn_Put (d : Datastore) (bb : Txn) (key : string) (value : bytes)
  : Datastore * Txn * option error :=
  let d := log (CallTxnPut key value) d in
  match txn_Put_fault (puts bb) key value with
  | Some e => (d, mkTxn (staged bb) (S (puts bb)), Some e)
  | None => (d, mkTxn (staged bb ++ [(key, value)]) (S (puts bb)), None)
  end.

(** [bb.Discard]: throws the staged writes away. *)
Definition txn_Discard (d : Datastore) (bb : Txn) : Datastore :=
  log CallTxnDiscard d.

(** The staged writes applied in order. *)
Definition apply_staged (m : gmap string bytes) (l : list (string * bytes))
  : gmap string bytes :=
  foldl (λ m kvp, <[kvp.1 := kvp.2]> m) m l.

(** [bb.Commit]: all staged writes become visible, or none does. *)
Definition txn_Commit (d : Datastore) (bb : Txn) : Datastore * option error :=
  let d := log CallTxnCommit d in
  match txn_Commit_fault with
  | Some e => (d, Some e)
  | None => (mkDatastore (apply_staged (kv d) (staged bb)) (txn_calls d), None)
  end.
End Engine.

(** ** The store *)

(** [DefaultStore]: the datastore and the in-memory height counter, a
    uint64 (the context [ctx] is passed to the engine untouched and carries
    no state). *)
Record DefaultStore := mkStore {
  db : Datastore;
  height : N
}.

(** [New(ctx, ds)] *)
Definition New (ds : Datastore) : DefaultStore := mkStore ds 0.

(** sync/atomic on the [height] field. *)
Definition atomic_LoadUint64 (s : DefaultStore) : N := height s.

Definition atomic_StoreUint64 (s : DefaultStore) (val : N) : DefaultStore :=
  mkStore (db s) val.

Definition atomic_CompareAndSwapUint64 (s : DefaultStore) (old new : N)
  : DefaultStore * bool :=
  if height s =? old then (mkStore (db s) new, true) else (s, false).

(** [SetHeight]: one load, and one compare-and-swap when the offer is
    higher; the outcome of the swap is dropped. *)
Definition SetHeight (s : DefaultStore) (h : N) : DefaultStore :=
  let storeHeight := atomic_LoadUint64 s in
  if storeHeight <? h
  then fst (atomic_CompareAndSwapUint64 s storeHeight h)
  else s.

Definition Height (s : DefaultStore) : N := atomic_LoadUint64 s.

(** The zero value of [[32]byte]. *)
Definition zero_hash : Hash32 := mkHash32 (replicate 32 x00) eq_refl.

Section Store.
Context {types : Types} {engine : Engine}.

Definition with_db (s : DefaultStore) (d : Datastore) : DefaultStore :=
  mkStore d (height s).

Definition SaveBlock (s : DefaultStore) (block : Block) (commit : Commit)
  : DefaultStore * option error :=
  let hash := Block_Header_Hash block in
  let '(blockBlob, err) := MarshalBinary block in
  match err with
  | Some err => (s, Some (fmt_Errorf "failed to marshal Block to binary" err))
  | None =>
  let '(commitBlob, err) := MarshalBinary commit in
  match err with
  | Some err => (s, Some (fmt_Errorf "failed to marshal Commit to binary" err))
  | None =>
  if negb is_badger3
  then (s, Some (errors_New "failed to retrieve the ds.Datastore implementation"))
  else
  let '(d, bb, err) := ds_NewTransaction (db s) in
  match err with
  | Some err =>
      (with_db s d,
       Some (fmt_Errorf "failed to create a new batch for transaction" err))
  | None =>
  let '(d, bb, e) := txn_Put d bb (NewKey (getBlockKey hash)) blockBlob in
  let err := multierr_Append None e in
  let '(d, bb, e) := txn_Put d bb (NewKey (getCommitKey hash)) commitBlob in
  let err := multierr_Append err e in
  let '(d, bb, e) :=
    txn_Put d bb (NewKey (getIndexKey (Block_Header_Height block)))
      (hash_bytes hash) in
  let err := multierr_Append err e in
  match err with
  | Some err => (with_db s (txn_Discard d bb), Some err)
  | None =>
  let '(d, err) := txn_Commit d bb in
  match err with
  | Some err => (with_db s d, Some (fmt_Errorf "failed to commit transaction" err))
  | None => (with_db s d, None)
  end end end end end.

Definition loadHashFromIndex (s : DefaultStore) (h : N)
  : Hash32 * option error :=
  let '(blob, err) := ds_Get (db s) (NewKey (getIndexKey h)) in
  match err with
  | Some err =>
      (zero_hash,
       Some (fmt_Errorf ("failed to load block hash for height " +:+ FormatUint h) err))
  | None =>
  match decide (length blob = 32%nat) with
  | right _ => (zero_hash, Some errInvalidHashLength)
  | left len_ok => (mkHash32 blob len_ok, None)
  end end.

Definition LoadBlockByHash (s : DefaultStore) (hash : Hash32)
  : option Block * option error :=
  let '(blockData, err) := ds_Get (db s) (NewKey (getBlockKey hash)) in
  match err with
  | Some err => (None, Some (fmt_Errorf "failed to load block data" err))
  | None =>
  let '(block, err) := UnmarshalBinary blockData in
  match err with
  | Some err => (None, Some (fmt_Errorf "failed to unmarshal block data" err))
  | None => (Some block, None)
  end end.

Definition LoadBlock (s : DefaultStore) (h : N)
  : option Block * option error :=
  let '(hash, err) := loadHashFromIndex s h in
  match err with
  | Some err => (None, Some (fmt_Errorf "failed to load hash from index" err))
  | None => LoadBlockByHash s hash
  end.

Definition SaveBlockResponses (s : DefaultStore) (h : N)
    (responses : ABCIResponses) : DefaultStore * option error :=
  let '(data, err) := Marshal responses in
  match err with
  | Some err => (s, Some (fmt_Errorf "failed to marshal response" err))
  | None =>
  let '(d, err) := ds_Put (db s) (NewKey (getResponsesKey h)) data in
  (with_db s d, err)
  end.

Definition LoadBlockResponses (s : DefaultStore) (h : N)
  : option ABCIResponses * option error :=
  let '(data, err) := ds_Get (db s) (NewKey (getResponsesKey h)) in
  match err with
  | Some err =>
      (None,
       Some (fmt_Errorf
               ("failed to retrieve block results from height " +:+ FormatUint h)
               err))
  | None =>
  let '(responses, err) := Unmarshal data in
  match err with
  | Some err => (Some responses, Some (fmt_Errorf "failed to unmarshal data" err))
  | None => (Some responses, None)
  end end.

Definition LoadCommitByHash (s : DefaultStore) (hash : Hash32)
  : option Commit * option error :=
  let '(commitData, err) := ds_Get (db s) (NewKey (getCommitKey hash)) in
  match err with
  | Some err =>
      (None,
       Some (fmt_Errorf
               ("failed to retrieve commit from hash "
                  +:+ Sprint_bytes (hash_bytes hash))
               err))
  | None =>
  let '(commit, err) := UnmarshalBinary commitData in
  match err with
  | Some err => (None, Some (fmt_Errorf "failed to marshal Commit into object" err))
  | None => (Some commit, None)
  end end.

Definition LoadCommit (s : DefaultStore) (h : N)
  : option Commit * option error :=
  let '(hash, err) := loadHashFromIndex s h in
  match err with
  | Some err => (None, Some (fmt_Errorf "failed to load hash from index" err))
  | None => LoadCommitByHash s hash
  end.

Definition UpdateState (s : DefaultStore) (state : State)
  : DefaultStore * option error :=
  let '(pbState, err) := State_ToProto state in
  match err with
  | Some err => (s, Some (fmt_Errorf "failed to marshal state to JSON" err))
  | None =>
  let '(data, err) := Marshal pbState in
  match err with
  | Some err => (s, Some err)
  | None =>
  let '(d, err) := ds_Put (db s) (NewKey getStateKey) data in
  (with_db s d, err)
  end end.

(** [LoadState]: the counter is stored after [FromProto], whatever
    [FromProto] returned. *)
Definition LoadState (s : DefaultStore)
  : DefaultStore * (State * option error) :=
  let '(blob, err) := ds_Get (db s) (NewKey getStateKey) in
  match err with
  | Some err => (s, (State_zero, Some (fmt_Errorf "failed to retrieve state" err)))
  | None =>
  let '(pbState, err) := Unmarshal blob in
  match err with
  | Some err =>
      (s, (State_zero, Some (fmt_Errorf "failed to unmarshal state from JSON" err)))
  | None =>
  let '(state, err) := State_FromProto pbState in
  let s := atomic_StoreUint64 s (uint64_of_int64 (State_LastBlockHeight state)) in
  (s, (state, err))
  end end.

Definition SaveValidators (s : DefaultStore) (h : N)
    (validatorSet : ValidatorSet) : DefaultStore * option error :=
  let '(pbValSet, err) := ValidatorSet_ToProto validatorSet in
  match err with
  | Some err =>
      (s, Some (fmt_Errorf "failed to marshal ValidatorSet to protobuf" err))
  | None =>
  let '(blob, err) := Marshal pbValSet in
  match err with
  | Some err => (s, Some (fmt_Errorf "failed to marshal ValidatorSet" err))
  | None =>
  let '(d, err) := ds_Put (db s) (NewKey (getValidatorsKey h)) blob in
  (with_db s d, err)
  end end.

Definition LoadValidators (s : DefaultStore) (h : N)
  : option ValidatorSet * option error :=
  let '(blob, err) := ds_Get (db s) (NewKey (getValidatorsKey h)) in
  match err with
  | Some err =>
      (None,
       Some (fmt_Errorf
               ("failed to load Validators for height " +:+ FormatUint h) err))
  | None =>
  let '(pbValSet, err) := Unmarshal blob in
  match err with
  | Some err => (None, Some (fmt_Errorf "failed to unmarshal to protobuf" err))
  | None => ValidatorSetFromProto pbValSet
  end end.

(** *** The batch of [SaveBlock]

    The three writes [SaveBlock] stages, as calls on the transaction and
    as key-value pairs, and whether the engine fails to stage one of
    them (the batch is then partially built). *)
Definition batch_writes (block : Block) (blockBlob commitBlob : bytes)
  : list (string * bytes) :=
  let hash := Block_Header_Hash block in
  [ (NewKey (getBlockKey hash), blockBlob);
    (NewKey (getCommitKey hash), commitBlob);
    (NewKey (getIndexKey (Block_Header_Height block)), hash_bytes hash) ].

Definition batch_puts (block : Block) (blockBlob commitBlob : bytes)
  : list txn_call :=
  map (λ w, CallTxnPut w.1 w.2) (batch_writes block blockBlob commitBlob).

Definition failed (e : option error) : bool :=
  match e with Some _ => true | None => false end.

Definition staging_failed (block : Block) (blockBlob commitBlob : bytes)
  : bool :=
  let hash := Block_Header_Hash block in
  failed (txn_Put_fault 0 (NewKey (getBlockKey hash)) blockBlob)
  || failed (txn_Put_fault 1 (NewKey (getCommitKey hash)) commitBlob)
  || failed (txn_Put_fault 2
               (NewKey (getIndexKey (Block_Header_Height block)))
               (hash_bytes hash)).

(** [ds.NewKey] keeps the keys of the given records apart. *)
Definition NewKey_separates (rs : list record_id) : Prop :=
  ∀ r1 r2, r1 ∈ rs → r2 ∈ rs →
    NewKey (key_of r1) = NewKey (key_of r2) → r1 = r2.

(** *** The operations of the [Store] interface as a state machine *)

Inductive op :=
| OpSetHeight (h : N)
| OpHeight
| OpSaveBlock (block : Block) (commit : Commit)
| OpLoadBlock (h : N)
| OpLoadBlockByHash (hash : Hash32)
| OpSaveBlockResponses (h : N) (responses : ABCIResponses)
| OpLoadBlockResponses (h : N)
| OpLoadCommit (h : N)
| OpLoadCommitByHash (hash : Hash32)
| OpUpdateState (state : State)
| OpLoadState
| OpSaveValidators (h : N) (validatorSet : ValidatorSet)
| OpLoadValidators (h : N).

(** The store after an operation (the loads other than [LoadState] only
    read it). *)
Definition run_op (s : DefaultStore) (o : op) : DefaultStore :=
  match o with
  | OpSetHeight h => SetHeight s h
  | OpSaveBlock block commit => fst (SaveBlock s block commit)
  | OpSaveBlockResponses h r => fst (SaveBlockResponses s h r)
  | OpUpdateState state => fst (UpdateState s state)
  | OpLoadState => fst (LoadState s)
  | OpSaveValidators h v => fst (SaveValidators s h v)
  | OpHeight | OpLoadBlock _ | OpLoadBlockByHash _ | OpLoadBlockResponses _
  | OpLoadCommit _ | OpLoadCommitByHash _ | OpLoadValidators _ => s
  end.

Definition run_ops (s : DefaultStore) (os : list op) : DefaultStore :=
  foldl run_op s os.

(** The height an operation offers to the counter, according to the
    documentation of [SetHeight] and [SaveBlock]. *)
Definition offered (s : DefaultStore) (o : op) : option N :=
  match o with
  | OpSetHeight h => Some h
  | OpSaveBlock block commit =>
      match snd (SaveBlock s block commit) with
      | None => Some (Block_Header_Height block)
      | Some _ => None
      end
  | _ => None
  end.

(** The largest height offered along a run, starting from the counter. *)
Fixpoint max_offered (s : DefaultStore) (acc : N) (os : list op) : N :=
  match os with
  | [] => acc
  | o :: os =>
      max_offered (run_op s o)
        (match offered s o with Some h => N.max acc h | None => acc end) os
  end.
(** The largest height passed to [SetHeight] along a run, starting from the
    counter. *)
Definition max_SetHeight (acc : N) (os : list op) : N :=
  foldl (λ acc o, match o with OpSetHeight h => N.max acc h | _ => acc end)
    acc os.

Definition is_offer (o : op) : Prop :=
  match o with
  | OpSetHeight _ | OpSaveBlock _ _ => True
  | _ => False
  end.
End Store.

(** ** Footprints, reachable datastores and interleavings *)

Section Footprint.
Context {types : Types} {engine : Engine}.

(** [ds.NewKey] is injective on the keys the store derives. *)
Definition NewKey_injective : Prop :=
  ∀ r1 r2, NewKey (key_of r1) = NewKey (key_of r2) → r1 = r2.

(** The records an operation writes when it succeeds. *)
Definition written_records (o : op) : list record_id :=
  match o with
  | OpSaveBlock block _ =>
      [ BlockRec (Block_Header_Hash block);
        CommitRec (Block_Header_Hash block);
        IndexRec (Block_Header_Height block) ]
  | OpSaveBlockResponses h _ => [ResponsesRec h]
  | OpUpdateState _ => [StateRec]
  | OpSaveValidators h _ => [ValidatorsRec h]
  | _ => []
  end.

(** Every index entry that holds a hash points at a stored block and a
    stored commit. *)
Definition index_consistent (d : Datastore) : Prop :=
  ∀ h hash,
    kv d !! NewKey (getIndexKey h) = Some (hash_bytes hash) →
    is_Some (kv d !! NewKey (getBlockKey hash))
    ∧ is_Some (kv d !! NewKey (getCommitKey hash)).

(** [SetHeight] is two atomic steps, a load and a compare-and-swap; here
    another writer of the counter runs between them. *)
Definition SetHeight_interleaved (s : DefaultStore) (h : N)
    (other : DefaultStore → DefaultStore) : DefaultStore :=
  let storeHeight := atomic_LoadUint64 s in
  let s := other s in
  if storeHeight <? h
  then fst (atomic_CompareAndSwapUint64 s storeHeight h)
  else s.
End Footprint.

(** ** A concrete instance

    A small instance of the record types and of the engine, on which the
    store can be run: blocks, commits, responses and validator sets are
    their payload bytes (an empty blob does not decode), a block's height is
    the length of its payload, and a chain state is its last block height,
    encoded in one byte. *)
Module Sample.

Definition unmarshal_payload (blob : bytes) : bytes * option error :=
  match blob with
  | [] => ([], Some (errors_New "unexpected EOF"))
  | _ => (blob, None)
  end.

Definition payload_hash (p : bytes) : Hash32 :=
  mkHash32 (replicate 32 (hd x00 p)) eq_refl.

Definition marshal_height (z : Z) : bytes * option error :=
  if (z <? 0)%Z then ([], Some (errors_New "negative height"))
  else match Byte.of_N (Z.to_N z) with
       | Some b => ([b], None)
       | None => ([], Some (errors_New "height too large"))
       end.

Definition unmarshal_height (blob : bytes) : Z * option error :=
  match blob with
  | [b] => (Z.of_N (Byte.to_N b), None)
  | _ => (0%Z, Some (errors_New "proto: illegal length"))
  end.

Definition payload_binary : BinaryCodec bytes :=
  {| MarshalBinary p := (p, None); UnmarshalBinary := unmarshal_payload |}.

Definition payload_proto : ProtoCodec bytes :=
  {| Marshal p := (p, None); Unmarshal := unmarshal_payload |}.

Definition height_proto : ProtoCodec Z :=
  {| Marshal := marshal_height; Unmarshal := unmarshal_height |}.

Definition types : Types := {|
  Block := bytes;
  Commit := bytes;
  State := Z;
  pbState := Z;
  ABCIResponses := bytes;
  ValidatorSet := bytes;
  pbValidatorSet := bytes;
  Block_Header_Hash := payload_hash;
  Block_Header_Height p := N.of_nat (length p);
  Block_codec := payload_binary;
  Commit_codec := payload_binary;
  State_zero := 0%Z;
  State_LastBlockHeight z := z;
  State_ToProto z := (z, None);
  State_FromProto z := (z, None);
  pbState_codec := height_proto;
  ABCIResponses_codec := payload_proto;
  ValidatorSet_ToProto p := (p, None);
  ValidatorSetFromProto p := (Some p, None);
  pbValidatorSet_codec := payload_proto
|}.

(** [ds.NewKey] on the relative keys of this store: the key is rooted and
    a trailing slash (the bare state prefix) is dropped. *)
Fixpoint trim_slash (s : string) : string :=
  match s with
  | "" => ""
  | String c "" => if Ascii.eqb c "/" then "" else s
  | String c rest => String c (trim_slash rest)
  end.

Definition rooted (s : string) : string := "/" +:+ trim_slash s.

(** A badger3 datastore on which every call succeeds. *)
Definition badger : Engine := {|
  NewKey := rooted;
  is_badger3 := true;
  Put_fault _ _ := None;
  NewTransaction_fault := None;
  txn_Put_fault _ _ _ := None;
  txn_Commit_fault := None
|}.

(** A badger3 datastore whose transactions fail to stage their second
    write. *)
Definition badger_put_fails : Engine := {|
  NewKey := rooted;
  is_badger3 := true;
  Put_fault _ _ := None;
  NewTransaction_fault := None;
  txn_Put_fault n _ _ :=
    if (n =? 1)%nat then Some (errors_New "Txn is too big to fit into one request")
    else None;
  txn_Commit_fault := None
|}.

(** A badger3 datastore whose transactions fail to commit. *)
Definition badger_commit_fails : Engine := {|
  NewKey := rooted;
  is_badger3 := true;
  Put_fault _ _ := None;
  NewTransaction_fault := None;
  txn_Put_fault _ _ _ := None;
  txn_Commit_fault := Some (errors_New "Transaction Conflict. Please retry")
|}.

Definition empty_ds : Datastore := mkDatastore ∅ [].
Definition store0 : DefaultStore := New empty_ds.

(** A block of height 10 and its commit. *)
Definition block10 : bytes := replicate 10 x07.
Definition commit10 : bytes := [x01; x02].

(** A store at height 10 whose persisted chain state records height 3. *)
Definition store_state3 : DefaultStore :=
  mkStore (mkDatastore {[ rooted getStateKey := [x03] ]} []) 10.

(** A store whose index entry for height 5 holds 2 bytes, and whose
    entries for height 6 hold blobs that do not decode. *)
Definition hash6 : Hash32 := mkHash32 (replicate 32 x06) eq_refl.

Definition store_corrupt : DefaultStore :=
  mkStore
    (mkDatastore
       (<[ rooted (getIndexKey 5) := [x01; x02] ]>
        (<[ rooted (getIndexKey 6) := hash_bytes hash6 ]>
         (<[ rooted (getBlockKey hash6) := [] ]>
          (<[ rooted (getCommitKey hash6) := [] ]>
           (<[ rooted (getResponsesKey 6) := [] ]>
            (<[ rooted (getValidatorsKey 6) := [] ]> ∅))))))
       [])
    6.

(** A store whose index entry for height 7 points at a hash with no block
    and no commit. *)
Definition store_dangling : DefaultStore :=
  mkStore
    (mkDatastore {[ rooted (getIndexKey 7) := hash_bytes hash6 ]} []) 7.
End Sample.

#[local] Existing Instance Sample.types.

(** Further inputs for the concrete instance. *)

(** A second block at height 10, with another hash, and its commit. *)
Definition other_block10 : bytes := replicate 10 x08.
Definition other_commit10 : bytes := [x03].

(** A badger3 datastore that refuses every single-key write. *)
Definition badger_read_only : Engine := {|
  NewKey := Sample.rooted;
  is_badger3 := true;
  Put_fault _ _ := Some (errors_New "read-only datastore");
  NewTransaction_fault := None;
  txn_Put_fault _ _ _ := None;
  txn_Commit_fault := None
|}.

(** A datastore that is not a badger3 datastore. *)
Definition map_datastore : Engine := {|
  NewKey := Sample.rooted;
  is_badger3 := false;
  Put_fault _ _ := None;
  NewTransaction_fault := None;
  txn_Put_fault _ _ _ := None;
  txn_Commit_fault := None
|}.

(** A badger3 datastore whose transactions fail to stage their first and
    third writes. *)
Definition badger_two_puts_fail : Engine := {|
  NewKey := Sample.rooted;
  is_badger3 := true;
  Put_fault _ _ := None;
  NewTransaction_fault := None;
  txn_Put_fault n _ _ :=
    if (n =? 0)%nat then Some (errors_New "first write refused")
    else if (n =? 2)%nat then Some (errors_New "third write refused")
    else None;
  txn_Commit_fault := None
|}.

(** A variant of the concrete instance in which the byte of a chain state
    is a signed last block height (two's complement, -128 to 127), and
    [FromProto] reports a negative height as an error. *)
Definition marshal_signed_height (z : Z) : bytes * option error :=
  if ((-128 <=? z) && (z <? 128))%Z
  then match Byte.of_N (Z.to_N (z mod 256)) with
       | Some b => ([b], None)
       | None => ([], Some (errors_New "height out of range"))
       end
  else ([], Some (errors_New "height out of range")).

Definition unmarshal_signed_height (blob : bytes) : Z * option error :=
  match blob with
  | [b] =>
      let n := Z.of_N (Byte.to_N b) in
      ((if n <? 128 then n else n - 256)%Z, None)
  | _ => (0%Z, Some (errors_New "proto: illegal length"))
  end.

Definition signed_types : Types := {|
  Block := bytes;
  Commit := bytes;
  State := Z;
  pbState := Z;
  ABCIResponses := bytes;
  ValidatorSet := bytes;
  pbValidatorSet := bytes;
  Block_Header_Hash := Sample.payload_hash;
  Block_Header_Height p := N.of_nat (length p);
  Block_codec := Sample.payload_binary;
  Commit_codec := Sample.payload_binary;
  State_zero := 0%Z;
  State_LastBlockHeight z := z;
  State_ToProto z := (z, None);
  State_FromProto z :=
    (z, if (z <? 0)%Z then Some (errors_New "negative last block height")
        else None);
  pbState_codec :=
    {| Marshal := marshal_signed_height; Unmarshal := unmarshal_signed_height |};
  ABCIResponses_codec := Sample.payload_proto;
  ValidatorSet_ToProto p := (p, None);
  ValidatorSetFromProto p := (Some p, None);
  pbValidatorSet_codec := Sample.payload_proto
|}.

(** A store at height 10 whose persisted chain state records height -2. *)
Definition store_state_negative : DefaultStore :=
  mkStore (mkDatastore {[ Sample.rooted getStateKey := [xfe] ]} []) 10.

(** A store whose persisted chain state does not decode. *)
Definition store_state_corrupt : DefaultStore :=
  mkStore (mkDatastore {[ Sample.rooted getStateKey := [x01; x02] ]} []) 10.

(** * Properties *)

(** ** Hashes and key encodings *)

Lemma Hash32_eq (a b : Hash32) : hash_bytes a = hash_bytes b → a = b.
Proof.
  destruct a as [la pa], b as [lb pb]; simpl; intros ->.
  f_equal. apply proof_irrel.
Qed.

Lemma hex_byte_roundtrip (v : byte) :
  fromHexChar (hextable_at (N.shiftr (Byte.to_N v) 4)) =
    Some (N.shiftr (Byte.to_N v) 4)
  ∧ fromHexChar (hextable_at (N.land (Byte.to_N v) 15)) =
      Some (N.land (Byte.to_N v) 15)
  ∧ Byte.of_N (N.lor (N.shiftl (N.shiftr (Byte.to_N v) 4) 4)
                 (N.land (Byte.to_N v) 15)) = Some v.
Proof. destruct v; vm_compute; auto. Qed.

Lemma DecodeString_EncodeToString (src : bytes) :
  DecodeString (EncodeToString src) = Some src.
Proof.
  induction src as [|v rest IH]; [reflexivity|].
  destruct (hex_byte_roundtrip v) as (Hhi & Hlo & Hv).
  cbn [EncodeToString DecodeString].
  rewrite Hhi, Hlo, IH, Hv. reflexivity.
Qed.

Lemma EncodeToString_inj (a b : bytes) :
  EncodeToString a = EncodeToString b → a = b.
Proof.
  intros H. apply (f_equal DecodeString) in H.
  rewrite !DecodeString_EncodeToString in H. congruence.
Qed.

Lemma FormatUint_inj (a b : N) : FormatUint a = FormatUint b → a = b.
Proof. unfold FormatUint. apply (inj pretty). Qed.

Lemma EncodeToString_length (src : bytes) :
  String.length (EncodeToString src) = (2 * length src)%nat.
Proof. induction src as [|v rest IH]; simpl; [reflexivity|]. rewrite IH. lia. Qed.

Lemma hextable_at_lower_hex (v : byte) :
  lower_hex (hextable_at (N.shiftr (Byte.to_N v) 4)) = true
  ∧ lower_hex (hextable_at (N.land (Byte.to_N v) 15)) = true.
Proof. destruct v; vm_compute; auto. Qed.

Lemma EncodeToString_lower_hex (src : bytes) :
  Forall (λ c, lower_hex c = true) (list_ascii_of_string (EncodeToString src)).
Proof.
  induction src as [|v rest IH]; simpl; [constructor|].
  destruct (hextable_at_lower_hex v). repeat constructor; assumption.
Qed.

Lemma pretty_N_go_digits (x : N) (s : string) :
  Forall (λ c, decimal_digit c = true) (list_ascii_of_string s) →
  Forall (λ c, decimal_digit c = true) (list_ascii_of_string (pretty_N_go x s)).
Proof.
  revert s. induction (N.lt_wf_0 x) as [x _ IH]; intros s Hs.
  destruct (decide (0 < x)) as [Hpos|Hz].
  - rewrite pretty_N_go_step by assumption.
    apply IH; [apply N.div_lt; lia|].
    simpl. constructor; [|assumption].
    unfold pretty_N_char. repeat case_match; reflexivity.
  - replace x with 0 by lia. rewrite pretty_N_go_0. assumption.
Qed.

Lemma FormatUint_digits (i : N) :
  Forall (λ c, decimal_digit c = true) (list_ascii_of_string (FormatUint i)).
Proof.
  unfold FormatUint, pretty, pretty_N. case_decide.
  - repeat constructor.
  - apply pretty_N_go_digits. constructor.
Qed.

Lemma key_of_inj (r1 r2 : record_id) : key_of r1 = key_of r2 → r1 = r2.
Proof.
  destruct r1, r2; cbn; intros H; try discriminate; try reflexivity;
    injection H as H; f_equal;
    first [ apply Hash32_eq, EncodeToString_inj, H | apply FormatUint_inj, H ].
Qed.

Lemma key_of_prefix (r : record_id) : ∃ suffix, key_of r = prefix_of r +:+ suffix.
Proof. destruct r; cbn; eauto. Qed.

(** C9.  Key derivation: block and commit keys are ["b/"] and ["c/"]
    followed by the 64 lowercase hexadecimal characters of the hash; index,
    responses and validators keys are ["i/"], ["r/"] and ["v/"] followed by
    the decimal digits of the height; the state key is the bare ["s/"].
    Two records have the same key only if they are the same record, so keys
    of distinct classes are never equal and within a class the key function
    is injective. *)
Theorem key_derivation :
  (∀ hash,
     getBlockKey hash = "b/" +:+ EncodeToString (hash_bytes hash)
     ∧ getCommitKey hash = "c/" +:+ EncodeToString (hash_bytes hash)
     ∧ String.length (EncodeToString (hash_bytes hash)) = 64%nat
     ∧ Forall (λ c, lower_hex c = true)
         (list_ascii_of_string (EncodeToString (hash_bytes hash))))
  ∧ (∀ h,
       getIndexKey h = "i/" +:+ FormatUint h
       ∧ getResponsesKey h = "r/" +:+ FormatUint h
       ∧ getValidatorsKey h = "v/" +:+ FormatUint h
       ∧ Forall (λ c, decimal_digit c = true)
           (list_ascii_of_string (FormatUint h)))
  ∧ getStateKey = "s/"
  ∧ (∀ r1 r2, prefix_of r1 ≠ prefix_of r2 → key_of r1 ≠ key_of r2)
  ∧ (∀ r1 r2, key_of r1 = key_of r2 → r1 = r2).
Proof.
  split; [|split; [|split; [|split]]].
  - intros hash. repeat split.
    + rewrite EncodeToString_length, (hash_len hash). reflexivity.
    + apply EncodeToString_lower_hex.
  - intros h. repeat split. apply FormatUint_digits.
  - reflexivity.
  - intros r1 r2 Hne Heq. apply key_of_inj in Heq. congruence.
  - apply key_of_inj.
Qed.

(** ** The height counter *)

Lemma SetHeight_max (s : DefaultStore) (h : N) :
  height (SetHeight s h) = N.max (height s) h.
Proof.
  unfold SetHeight, atomic_CompareAndSwapUint64, atomic_LoadUint64.
  rewrite N.eqb_refl.
  destruct (N.ltb_spec (height s) h); simpl; lia.
Qed.

(** C5.  [SetHeight h] leaves the counter at the maximum of its previous
    value and [h]: an offer that is not strictly greater changes nothing, a
    strictly greater one is stored; the datastore is not touched, and
    [Height] is the counter, whatever the datastore holds. *)
Theorem SetHeight_Height (s : DefaultStore) (h : N) :
  Height (SetHeight s h) = N.max (Height s) h
  ∧ (h ≤ Height s → SetHeight s h = s)
  ∧ (Height s < h → Height (SetHeight s h) = h)
  ∧ db (SetHeight s h) = db s
  ∧ (∀ d, Height (mkStore d (height s)) = Height s).
Proof.
  unfold SetHeight, Height, atomic_CompareAndSwapUint64, atomic_LoadUint64.
  rewrite N.eqb_refl.
  destruct (N.ltb_spec (height s) h) as [Hlt|Hge]; simpl.
  - repeat split; lia.
  - repeat split; lia.
Qed.

Lemma SetHeight_Height_witness :
  Height (SetHeight (mkStore Sample.empty_ds 7) 4) = 7
  ∧ SetHeight (mkStore Sample.empty_ds 7) 7 = mkStore Sample.empty_ds 7
  ∧ Height (SetHeight (mkStore Sample.empty_ds 7) 9) = 9.
Proof.
  split; [|split].
  - exact (proj1 (SetHeight_Height (mkStore Sample.empty_ds 7) 4)).
  - destruct (SetHeight_Height (mkStore Sample.empty_ds 7) 7) as (_ & Hle & _).
    apply Hle. vm_compute. discriminate.
  - destruct (SetHeight_Height (mkStore Sample.empty_ds 7) 9) as (_ & _ & Hlt & _).
    apply Hlt. reflexivity.
Defined.

Section HeightCounter.
Context {types : Types} {engine : Engine}.

Lemma SaveBlock_height (s : DefaultStore) (block : Block) (commit : Commit) :
  height (fst (SaveBlock s block commit)) = height s.
Proof. unfold SaveBlock. repeat case_match; reflexivity. Qed.

Lemma SaveBlockResponses_height s h r :
  height (fst (SaveBlockResponses s h r)) = height s.
Proof. unfold SaveBlockResponses. repeat case_match; reflexivity. Qed.

Lemma UpdateState_height s st : height (fst (UpdateState s st)) = height s.
Proof. unfold UpdateState. repeat case_match; reflexivity. Qed.

Lemma SaveValidators_height s h v :
  height (fst (SaveValidators s h v)) = height s.
Proof. unfold SaveValidators. repeat case_match; reflexivity. Qed.

Lemma run_op_height_le (s : DefaultStore) (o : op) :
  o ≠ OpLoadState → Height s ≤ Height (run_op s o).
Proof.
  intros Hne. unfold Height, atomic_LoadUint64.
  destruct o; simpl; try lia; try congruence.
  - rewrite SetHeight_max. lia.
  - rewrite SaveBlock_height. lia.
  - rewrite SaveBlockResponses_height. lia.
  - rewrite UpdateState_height. lia.
  - rewrite SaveValidators_height. lia.
Qed.

(** Along a run of [SetHeight] and [SaveBlock] calls the counter follows
    the [SetHeight] offers only. *)
Lemma run_offers_height (s : DefaultStore) (os : list op) :
  Forall is_offer os →
  Height (run_ops s os) = max_SetHeight (Height s) os.
Proof.
  intros Hos. revert s. unfold Height, atomic_LoadUint64.
  induction Hos as [|o os Ho _ IH]; intros s; [reflexivity|].
  simpl. rewrite IH. f_equal.
  destruct o; simpl in Ho |- *; try contradiction.
  - apply SetHeight_max.
  - apply SaveBlock_height.
Qed.

(** C3 (amended).  Every store operation other than [LoadState] leaves
    the counter at least as high as it found it, so does any sequence of
    them, and [SetHeight h] sets it to the maximum of its value and [h]. *)
Theorem height_non_decreasing (s : DefaultStore) (os : list op) :
  Forall (λ o, o ≠ OpLoadState) os →
  Height s ≤ Height (run_ops s os)
  ∧ ∀ h, Height (run_op s (OpSetHeight h)) = N.max (Height s) h.
Proof.
  intros Hos. split; [|intros h; apply SetHeight_max].
  revert s. induction Hos as [|o os Ho _ IH]; intros s; simpl; [lia|].
  etransitivity; [apply run_op_height_le, Ho | apply IH].
Qed.

(** C7.  Once the stored blob is read and unmarshalled, [LoadState]
    returns what [FromProto] decoded and stores the decoded state's
    [LastBlockHeight], converted to uint64, in the counter: the previous
    counter value plays no part, and the datastore is unchanged. *)
Theorem LoadState_reseeds (s : DefaultStore) (blob : bytes) (pb : pbState) :
  ds_Get (db s) (NewKey getStateKey) = (blob, None) →
  Unmarshal blob = (pb, None) →
  LoadState s =
    (mkStore (db s)
       (uint64_of_int64 (State_LastBlockHeight (fst (State_FromProto pb)))),
     State_FromProto pb)
  ∧ ((0 ≤ State_LastBlockHeight (fst (State_FromProto pb)) < 2 ^ 64)%Z →
     Z.of_N (Height (fst (LoadState s))) =
       State_LastBlockHeight (fst (State_FromProto pb))).
Proof.
  intros Hget Hun.
  assert (LoadState s =
    (mkStore (db s)
       (uint64_of_int64 (State_LastBlockHeight (fst (State_FromProto pb)))),
     State_FromProto pb)) as Heq.
  { unfold LoadState. rewrite Hget, Hun.
    destruct (State_FromProto pb) as [st err]. reflexivity. }
  split; [exact Heq|].
  intros Hrange. rewrite Heq. simpl.
  unfold Height, atomic_LoadUint64, uint64_of_int64. simpl.
  rewrite Z.mod_small by lia. lia.
Qed.
End HeightCounter.

Lemma height_non_decreasing_witness :
  Height Sample.store0 ≤
    Height (@run_ops Sample.types Sample.badger Sample.store0
              [OpSetHeight 4; OpSaveBlock Sample.block10 Sample.commit10;
               OpSetHeight 2; OpLoadBlock 10])
  ∧ ∀ h, Height (@run_op Sample.types Sample.badger Sample.store0
                   (OpSetHeight h)) = N.max (Height Sample.store0) h.
Proof.
  apply (@height_non_decreasing Sample.types Sample.badger).
  repeat constructor; discriminate.
Defined.

(** C3 (as stated).  [LoadState] lowers the counter: a store at height 10
    whose persisted chain state records last block height 3 is at height 3
    after the load. *)
Lemma LoadState_lowers_height :
  ¬ (Height Sample.store_state3 ≤
       Height (@run_op Sample.types Sample.badger Sample.store_state3
                 OpLoadState)).
Proof. vm_compute. intros H. apply H. reflexivity. Qed.

Lemma LoadState_reseeds_witness :
  @LoadState Sample.types Sample.badger Sample.store_state3 =
    (mkStore (db Sample.store_state3) 3, (3%Z, None))
  ∧ Z.of_N (Height (fst (@LoadState Sample.types Sample.badger
                           Sample.store_state3))) = 3%Z.
Proof.
  destruct (@LoadState_reseeds Sample.types Sample.badger
              Sample.store_state3 [x03] 3%Z) as [Heq Hexact].
  - reflexivity.
  - reflexivity.
  - split; [exact Heq|]. apply Hexact. simpl. lia.
Defined.

(** C1.  [SaveBlock] never writes the counter: saving a block of height 10
    into a fresh store succeeds, and [Height] still reports 0, although the
    largest height offered is 10.  For every store, [Height] is the same
    before and after [SaveBlock], and after a [SetHeight h] followed by a
    [SaveBlock] it is the maximum of the counter and [h], whatever the
    height of the block. *)
Theorem SaveBlock_does_not_update_height :
  let r := @SaveBlock Sample.types Sample.badger Sample.store0
             Sample.block10 Sample.commit10 in
  snd r = None
  ∧ @Block_Header_Height Sample.types Sample.block10 = 10
  ∧ Height Sample.store0 = 0
  ∧ Height (fst r) = 0
  ∧ @max_offered Sample.types Sample.badger Sample.store0
      (Height Sample.store0) [OpSaveBlock Sample.block10 Sample.commit10] = 10
  ∧ (∀ (types : Types) (engine : Engine) s block commit,
       Height (fst (SaveBlock s block commit)) = Height s)
  ∧ (∀ (types : Types) (engine : Engine) s block commit h,
       Height (run_ops s [OpSetHeight h; OpSaveBlock block commit]) =
         N.max (Height s) h).
Proof.
  repeat split; try (vm_compute; reflexivity).
  - intros. apply SaveBlock_height.
  - intros. rewrite run_offers_height by (repeat constructor). reflexivity.
Qed.

(** ** The atomic block save *)

Section SaveBlockAtomic.
Context {types : Types} {engine : Engine}.

(** The datastore after a successful [SaveBlock]. *)
Lemma SaveBlock_success (s s' : DefaultStore) (block : Block)
    (commit : Commit) :
  SaveBlock s block commit = (s', None) →
  ∃ blockBlob commitBlob,
    MarshalBinary block = (blockBlob, None)
    ∧ MarshalBinary commit = (commitBlob, None)
    ∧ kv (db s') =
        apply_staged (kv (db s)) (batch_writes block blockBlob commitBlob).
Proof.
  unfold SaveBlock, batch_writes, ds_NewTransaction, txn_Put, txn_Discard,
    txn_Commit, log, with_db.
  destruct (MarshalBinary block) as [bB [e1|]]; [discriminate|].
  destruct (MarshalBinary commit) as [cB [e2|]]; [discriminate|].
  destruct is_badger3; [|discriminate].
  destruct NewTransaction_fault as [e3|]; [discriminate|].
  cbn [negb puts staged kv txn_calls fst snd].
  repeat (case_match; simplify_eq/=; try discriminate).
  intros [= <-]. exists bB, cB. repeat split.
Qed.

(** C2.  A successful [SaveBlock] is one transaction: it is created, the
    block, commit and index entries are staged in it, and it is
    committed, which makes the three entries visible together.  When
    [SaveBlock] returns an error the committed key-value pairs are the
    ones it found, so every read answers as before; and a batch that was
    created but in which some write failed to stage is discarded, as the
    last call on the engine before the error is returned, and is never
    committed (a batch with all three writes staged goes to [Commit]). *)
Theorem SaveBlock_atomic (s s' : DefaultStore) (block : Block)
    (commit : Commit) (err : option error) :
  SaveBlock s block commit = (s', err) →
  match err with
  | None =>
      ∃ blockBlob commitBlob,
        MarshalBinary block = (blockBlob, None)
        ∧ MarshalBinary commit = (commitBlob, None)
        ∧ txn_calls (db s') =
            (txn_calls (db s)
               ++ CallNewTransaction :: batch_puts block blockBlob commitBlob
               ++ [CallTxnCommit])%list
        ∧ kv (db s') =
            apply_staged (kv (db s)) (batch_writes block blockBlob commitBlob)
  | Some e =>
      kv (db s') = kv (db s)
      ∧ (∀ key, ds_Get (db s') key = ds_Get (db s) key)
      ∧ ∀ blockBlob commitBlob,
          MarshalBinary block = (blockBlob, None) →
          MarshalBinary commit = (commitBlob, None) →
          is_badger3 = true →
          NewTransaction_fault = None →
          txn_calls (db s') =
            (txn_calls (db s)
               ++ CallNewTransaction :: batch_puts block blockBlob commitBlob
               ++ [if staging_failed block blockBlob commitBlob
                   then CallTxnDiscard else CallTxnCommit])%list
  end.
Proof.
  unfold SaveBlock, staging_failed, batch_puts, batch_writes, ds_Get,
    ds_NewTransaction, txn_Put, txn_Discard, txn_Commit, log, with_db.
  destruct (MarshalBinary block) as [bB [e1|]];
    [intros [= <- <-]; repeat split; intros; congruence|].
  destruct (MarshalBinary commit) as [cB [e2|]];
    [intros [= <- <-]; repeat split; intros; congruence|].
  destruct is_badger3;
    [|intros [= <- <-]; repeat split; intros; congruence].
  destruct NewTransaction_fault as [e3|];
    [intros [= <- <-]; repeat split; intros; congruence|].
  set (hash := Block_Header_Hash block).
  cbn [negb puts staged kv txn_calls fst snd].
  destruct (txn_Put_fault 0 (NewKey (getBlockKey hash)) bB)
    as [p1|] eqn:Hp1; simpl;
    destruct (txn_Put_fault 1 (NewKey (getCommitKey hash)) cB)
      as [p2|] eqn:Hp2; simpl;
    destruct (txn_Put_fault 2
                (NewKey (getIndexKey (Block_Header_Height block)))
                (hash_bytes hash)) as [p3|] eqn:Hp3; simpl;
    try (intros [= <- <-]; simpl;
         split; [reflexivity|split; [reflexivity|]];
         intros bB' cB' [= <-] [= <-] _ _;
         rewrite Hp1, Hp2; simpl; rewrite <- !app_assoc; reflexivity).
  destruct txn_Commit_fault as [e4|]; intros [= <- <-]; simpl.
  - split; [reflexivity|split; [reflexivity|]].
    intros bB' cB' [= <-] [= <-] _ _.
    rewrite Hp1, Hp2; simpl; rewrite <- !app_assoc; reflexivity.
  - exists bB, cB. repeat split.
    rewrite <- !app_assoc; reflexivity.
Qed.
End SaveBlockAtomic.

Lemma SaveBlock_atomic_witness :
  let r := @SaveBlock Sample.types Sample.badger_put_fails Sample.store0
             Sample.block10 Sample.commit10 in
  kv (db (fst r)) = kv (db Sample.store0)
  ∧ txn_calls (db (fst r)) =
      (CallNewTransaction
         :: @batch_puts Sample.types Sample.badger_put_fails
              Sample.block10 Sample.block10 Sample.commit10
         ++ [CallTxnDiscard])%list.
Proof.
  pose proof (@SaveBlock_atomic Sample.types Sample.badger_put_fails
                Sample.store0 _ Sample.block10 Sample.commit10 _ eq_refl)
    as (Hkv & _ & Hcalls).
  split; [exact Hkv|].
  exact (Hcalls Sample.block10 Sample.commit10 eq_refl eq_refl eq_refl eq_refl).
Defined.

(** ** Loading *)

Section Loads.
Context {types : Types} {engine : Engine}.

Lemma ds_Get_Some (d : Datastore) (key : string) (v : bytes) :
  kv d !! key = Some v → ds_Get d key = (v, None).
Proof. unfold ds_Get. intros ->. reflexivity. Qed.

Lemma ds_Get_None (d : Datastore) (key : string) :
  kv d !! key = None → ds_Get d key = ([], Some ErrNotFound).
Proof. unfold ds_Get. intros ->. reflexivity. Qed.

Lemma loadHashFromIndex_ok (s : DefaultStore) (h : N) (hash : Hash32) :
  kv (db s) !! NewKey (getIndexKey h) = Some (hash_bytes hash) →
  loadHashFromIndex s h = (hash, None).
Proof.
  intros Hidx. unfold loadHashFromIndex.
  rewrite (ds_Get_Some _ _ _ Hidx).
  destruct (decide (length (hash_bytes hash) = 32%nat)) as [pf|Hne].
  - f_equal. apply Hash32_eq. reflexivity.
  - destruct Hne. apply hash_len.
Qed.

Lemma loadHashFromIndex_absent (s : DefaultStore) (h : N) :
  kv (db s) !! NewKey (getIndexKey h) = None →
  loadHashFromIndex s h =
    (zero_hash,
     Some (fmt_Errorf ("failed to load block hash for height " +:+ FormatUint h)
             ErrNotFound)).
Proof.
  intros Hidx. unfold loadHashFromIndex.
  rewrite (ds_Get_None _ _ Hidx). reflexivity.
Qed.

Lemma loadHashFromIndex_bad_length (s : DefaultStore) (h : N) (blob : bytes) :
  kv (db s) !! NewKey (getIndexKey h) = Some blob →
  length blob ≠ 32%nat →
  loadHashFromIndex s h = (zero_hash, Some errInvalidHashLength).
Proof.
  intros Hidx Hlen. unfold loadHashFromIndex.
  rewrite (ds_Get_Some _ _ _ Hidx).
  destruct (decide (length blob = 32%nat)); [contradiction|reflexivity].
Qed.

Lemma LoadBlockByHash_ok (s : DefaultStore) (hash : Hash32) (blob : bytes)
    (block : Block) :
  kv (db s) !! NewKey (getBlockKey hash) = Some blob →
  UnmarshalBinary blob = (block, None) →
  LoadBlockByHash s hash = (Some block, None).
Proof.
  intros Hget Hun. unfold LoadBlockByHash.
  rewrite (ds_Get_Some _ _ _ Hget), Hun. reflexivity.
Qed.

Lemma LoadCommitByHash_ok (s : DefaultStore) (hash : Hash32) (blob : bytes)
    (commit : Commit) :
  kv (db s) !! NewKey (getCommitKey hash) = Some blob →
  UnmarshalBinary blob = (commit, None) →
  LoadCommitByHash s hash = (Some commit, None).
Proof.
  intros Hget Hun. unfold LoadCommitByHash.
  rewrite (ds_Get_Some _ _ _ Hget), Hun. reflexivity.
Qed.

(** C4.  After a successful [SaveBlock], and provided the codecs decode
    what they encoded for this block and commit and the datastore keeps
    the three keys apart, loading by height and by hash returns the saved
    block, respectively the saved commit, decoded from the very bytes
    that [MarshalBinary] produced. *)
Theorem SaveBlock_Load_roundtrip (s s' : DefaultStore) (block : Block)
    (commit : Commit) :
  let hash := Block_Header_Hash block in
  let h := Block_Header_Height block in
  NewKey_separates [BlockRec hash; CommitRec hash; IndexRec h] →
  UnmarshalBinary (fst (MarshalBinary block)) = (block, None) →
  UnmarshalBinary (fst (MarshalBinary commit)) = (commit, None) →
  SaveBlock s block commit = (s', None) →
  LoadBlock s' h = (Some block, None)
  ∧ LoadBlockByHash s' hash = (Some block, None)
  ∧ LoadCommit s' h = (Some commit, None)
  ∧ LoadCommitByHash s' hash = (Some commit, None)
  ∧ ds_Get (db s') (NewKey (getBlockKey hash)) =
      (fst (MarshalBinary block), None)
  ∧ ds_Get (db s') (NewKey (getCommitKey hash)) =
      (fst (MarshalBinary commit), None).
Proof.
  intros hash h Hsep Hblock Hcommit Hsave.
  apply SaveBlock_success in Hsave as (bB & cB & HbB & HcB & Hkv).
  rewrite HbB in Hblock |- *. rewrite HcB in Hcommit |- *. simpl in *.
  fold hash h in Hkv.
  assert (NewKey (getBlockKey hash) ≠ NewKey (getCommitKey hash)) as Hbc.
  { intros Heq. apply (Hsep (BlockRec hash) (CommitRec hash)) in Heq;
      [discriminate| set_solver ..]. }
  assert (NewKey (getBlockKey hash) ≠ NewKey (getIndexKey h)) as Hbi.
  { intros Heq. apply (Hsep (BlockRec hash) (IndexRec h)) in Heq;
      [discriminate| set_solver ..]. }
  assert (NewKey (getCommitKey hash) ≠ NewKey (getIndexKey h)) as Hci.
  { intros Heq. apply (Hsep (CommitRec hash) (IndexRec h)) in Heq;
      [discriminate| set_solver ..]. }
  assert (kv (db s') !! NewKey (getBlockKey hash) = Some bB) as Hb.
  { rewrite Hkv. unfold apply_staged, batch_writes. simpl.
    rewrite lookup_insert_ne, lookup_insert_ne, lookup_insert_eq by congruence.
    reflexivity. }
  assert (kv (db s') !! NewKey (getCommitKey hash) = Some cB) as Hc.
  { rewrite Hkv. unfold apply_staged, batch_writes. simpl.
    rewrite lookup_insert_ne, lookup_insert_eq by congruence. reflexivity. }
  assert (kv (db s') !! NewKey (getIndexKey h) = Some (hash_bytes hash)) as Hi.
  { rewrite Hkv. unfold apply_staged, batch_writes. simpl.
    rewrite lookup_insert_eq. reflexivity. }
  assert (LoadBlockByHash s' hash = (Some block, None)) as HLb
    by (eapply LoadBlockByHash_ok; eassumption).
  assert (LoadCommitByHash s' hash = (Some commit, None)) as HLc
    by (eapply LoadCommitByHash_ok; eassumption).
  repeat split; try assumption.
  - unfold LoadBlock. rewrite (loadHashFromIndex_ok _ _ _ Hi). exact HLb.
  - unfold LoadCommit. rewrite (loadHashFromIndex_ok _ _ _ Hi). exact HLc.
  - apply ds_Get_Some, Hb.
  - apply ds_Get_Some, Hc.
Qed.
End Loads.

(** ** Missing and corrupt entries *)

Section LoadErrors.
Context {types : Types} {engine : Engine}.

(** The kind of a concrete chain of errors, by evaluation; a message
    built from a height or a hash differs from the decode messages on its
    fixed prefix. *)
Ltac solve_kind :=
  first
    [ reflexivity
    | apply bool_decide_eq_false; unfold decode_messages;
      rewrite !elem_of_cons, elem_of_nil; cbn;
      intros Hin; repeat destruct Hin as [Hin|Hin];
      first [ discriminate Hin | exact Hin ] ].

Lemma LoadBlock_index_absent (s : DefaultStore) (h : N) :
  kv (db s) !! NewKey (getIndexKey h) = None →
  fails_NotFound (LoadBlock s h) ∧ fails_NotFound (LoadCommit s h).
Proof.
  intros Hidx. unfold LoadBlock, LoadCommit.
  rewrite (loadHashFromIndex_absent _ _ Hidx).
  split; eexists; (split; [reflexivity|]); repeat split; solve_kind.
Qed.

Lemma LoadBlock_block_absent (s : DefaultStore) (h : N) (hash : Hash32) :
  kv (db s) !! NewKey (getIndexKey h) = Some (hash_bytes hash) →
  kv (db s) !! NewKey (getBlockKey hash) = None →
  fails_NotFound (LoadBlock s h) ∧ fails_NotFound (LoadBlockByHash s hash).
Proof.
  intros Hidx Hblk. unfold LoadBlock.
  rewrite (loadHashFromIndex_ok _ _ _ Hidx). unfold LoadBlockByHash.
  rewrite (ds_Get_None _ _ Hblk).
  split; eexists; (split; [reflexivity|]); repeat split; solve_kind.
Qed.

Lemma LoadCommit_commit_absent (s : DefaultStore) (h : N) (hash : Hash32) :
  kv (db s) !! NewKey (getIndexKey h) = Some (hash_bytes hash) →
  kv (db s) !! NewKey (getCommitKey hash) = None →
  fails_NotFound (LoadCommit s h) ∧ fails_NotFound (LoadCommitByHash s hash).
Proof.
  intros Hidx Hcmt. unfold LoadCommit.
  rewrite (loadHashFromIndex_ok _ _ _ Hidx). unfold LoadCommitByHash.
  rewrite (ds_Get_None _ _ Hcmt).
  split; eexists; (split; [reflexivity|]); repeat split; solve_kind.
Qed.

Lemma LoadBlockResponses_absent (s : DefaultStore) (h : N) :
  kv (db s) !! NewKey (getResponsesKey h) = None →
  fails_NotFound (LoadBlockResponses s h).
Proof.
  intros Hget. unfold LoadBlockResponses. rewrite (ds_Get_None _ _ Hget).
  eexists; (split; [reflexivity|]); repeat split; solve_kind.
Qed.

Lemma LoadValidators_absent (s : DefaultStore) (h : N) :
  kv (db s) !! NewKey (getValidatorsKey h) = None →
  fails_NotFound (LoadValidators s h).
Proof.
  intros Hget. unfold LoadValidators. rewrite (ds_Get_None _ _ Hget).
  eexists; (split; [reflexivity|]); repeat split; solve_kind.
Qed.

Lemma Load_bad_index (s : DefaultStore) (h : N) (blob : bytes) :
  kv (db s) !! NewKey (getIndexKey h) = Some blob →
  length blob ≠ 32%nat →
  fails_InvalidHashLength (LoadBlock s h)
  ∧ fails_InvalidHashLength (LoadCommit s h).
Proof.
  intros Hidx Hlen. unfold LoadBlock, LoadCommit.
  rewrite (loadHashFromIndex_bad_length _ _ _ Hidx Hlen).
  split; eexists; (split; [reflexivity|]); repeat split; solve_kind.
Qed.
(** C6.  [LoadBlock] and [LoadCommit] fail with NotFound when the index
    entry of the height is absent, or when it is present and the block,
    respectively commit, entry of its hash is absent;
    [LoadBlockResponses] and [LoadValidators] fail with NotFound on a
    height with no entry; none of these is a decode error.  An index
    entry whose value is not 32 bytes long makes [LoadBlock] and
    [LoadCommit] fail with the invalid hash length error, which is not
    NotFound. *)
Theorem load_failure_kinds (s : DefaultStore) (h : N) :
  (kv (db s) !! NewKey (getIndexKey h) = None →
   fails_NotFound (LoadBlock s h) ∧ fails_NotFound (LoadCommit s h))
  ∧ (∀ hash,
       kv (db s) !! NewKey (getIndexKey h) = Some (hash_bytes hash) →
       kv (db s) !! NewKey (getBlockKey hash) = None →
       fails_NotFound (LoadBlock s h))
  ∧ (∀ hash,
       kv (db s) !! NewKey (getIndexKey h) = Some (hash_bytes hash) →
       kv (db s) !! NewKey (getCommitKey hash) = None →
       fails_NotFound (LoadCommit s h))
  ∧ (kv (db s) !! NewKey (getResponsesKey h) = None →
     fails_NotFound (LoadBlockResponses s h))
  ∧ (kv (db s) !! NewKey (getValidatorsKey h) = None →
     fails_NotFound (LoadValidators s h))
  ∧ (∀ blob,
       kv (db s) !! NewKey (getIndexKey h) = Some blob →
       length blob ≠ 32%nat →
       fails_InvalidHashLength (LoadBlock s h)
       ∧ fails_InvalidHashLength (LoadCommit s h)).
Proof.
  repeat apply conj.
  - apply LoadBlock_index_absent.
  - intros hash Hidx Hblk. apply (LoadBlock_block_absent s h hash Hidx Hblk).
  - intros hash Hidx Hcmt. apply (LoadCommit_commit_absent s h hash Hidx Hcmt).
  - apply LoadBlockResponses_absent.
  - apply LoadValidators_absent.
  - apply Load_bad_index.
Qed.

(** C10.  When the stored bytes do not decode, [LoadBlockResponses]
    returns the responses record as [Unmarshal] left it, together with
    the error, whereas [LoadBlock], [LoadBlockByHash], [LoadCommit],
    [LoadCommitByHash] and [LoadValidators] return no record with the
    error. *)
Theorem decode_failure_results (s : DefaultStore) (h : N) (hash : Hash32) :
  (∀ data responses e,
     kv (db s) !! NewKey (getResponsesKey h) = Some data →
     Unmarshal data = (responses, Some e) →
     LoadBlockResponses s h =
       (Some responses, Some (fmt_Errorf "failed to unmarshal data" e)))
  ∧ (∀ data (block : Block) e,
       kv (db s) !! NewKey (getBlockKey hash) = Some data →
       UnmarshalBinary data = (block, Some e) →
       LoadBlockByHash s hash =
         (None, Some (fmt_Errorf "failed to unmarshal block data" e))
       ∧ (kv (db s) !! NewKey (getIndexKey h) = Some (hash_bytes hash) →
          LoadBlock s h =
            (None, Some (fmt_Errorf "failed to unmarshal block data" e))))
  ∧ (∀ data (commit : Commit) e,
       kv (db s) !! NewKey (getCommitKey hash) = Some data →
       UnmarshalBinary data = (commit, Some e) →
       LoadCommitByHash s hash =
         (None, Some (fmt_Errorf "failed to marshal Commit into object" e))
       ∧ (kv (db s) !! NewKey (getIndexKey h) = Some (hash_bytes hash) →
          LoadCommit s h =
            (None, Some (fmt_Errorf "failed to marshal Commit into object" e))))
  ∧ (∀ data (pbValSet : pbValidatorSet) e,
       kv (db s) !! NewKey (getValidatorsKey h) = Some data →
       Unmarshal data = (pbValSet, Some e) →
       LoadValidators s h =
         (None, Some (fmt_Errorf "failed to unmarshal to protobuf" e))).
Proof.
  repeat apply conj.
  - intros data responses e Hget Hun. unfold LoadBlockResponses.
    rewrite (ds_Get_Some _ _ _ Hget), Hun. reflexivity.
  - intros data block e Hget Hun.
    assert (LoadBlockByHash s hash =
              (None, Some (fmt_Errorf "failed to unmarshal block data" e)))
      as Hby.
    { unfold LoadBlockByHash. rewrite (ds_Get_Some _ _ _ Hget), Hun.
      reflexivity. }
    split; [exact Hby|]. intros Hidx. unfold LoadBlock.
    rewrite (loadHashFromIndex_ok _ _ _ Hidx). exact Hby.
  - intros data commit e Hget Hun.
    assert (LoadCommitByHash s hash =
              (None, Some (fmt_Errorf "failed to marshal Commit into object" e)))
      as Hby.
    { unfold LoadCommitByHash. rewrite (ds_Get_Some _ _ _ Hget), Hun.
      reflexivity. }
    split; [exact Hby|]. intros Hidx. unfold LoadCommit.
    rewrite (loadHashFromIndex_ok _ _ _ Hidx). exact Hby.
  - intros data pbValSet e Hget Hun. unfold LoadValidators.
    rewrite (ds_Get_Some _ _ _ Hget), Hun. reflexivity.
Qed.
End LoadErrors.

(** ** The chain state *)

Section ChainState.
Context {types : Types} {engine : Engine}.

Lemma UpdateState_ok (s s' : DefaultStore) (state : State) (pb : pbState)
    (data : bytes) :
  State_ToProto state = (pb, None) →
  Marshal pb = (data, None) →
  UpdateState s state = (s', None) →
  kv (db s') = <[NewKey getStateKey := data]> (kv (db s))
  ∧ height s' = height s.
Proof.
  intros Hto Hm. unfold UpdateState, ds_Put. rewrite Hto, Hm.
  destruct (Put_fault (NewKey getStateKey) data); [discriminate|].
  intros [= <-]. split; reflexivity.
Qed.

(** C8.  When the codecs decode what they encode, [LoadState] after a
    successful [UpdateState state] returns [state]; after a second
    successful [UpdateState state2] it returns [state2], and the
    datastore is the one that a single [UpdateState state2] would have
    produced: the singleton record is replaced, nothing of the first
    state remains. *)
Theorem UpdateState_LoadState_roundtrip (s s1 s2 : DefaultStore)
    (state state2 : State) (pb pb2 : pbState) (data data2 : bytes) :
  State_ToProto state = (pb, None) → Marshal pb = (data, None) →
  Unmarshal data = (pb, None) → State_FromProto pb = (state, None) →
  State_ToProto state2 = (pb2, None) → Marshal pb2 = (data2, None) →
  Unmarshal data2 = (pb2, None) → State_FromProto pb2 = (state2, None) →
  UpdateState s state = (s1, None) →
  UpdateState s1 state2 = (s2, None) →
  snd (LoadState s1) = (state, None)
  ∧ snd (LoadState s2) = (state2, None)
  ∧ kv (db s2) = <[NewKey getStateKey := data2]> (kv (db s))
  ∧ kv (db s2) = kv (db (fst (UpdateState s state2))).
Proof.
  intros Hto Hm Hun Hfrom Hto2 Hm2 Hun2 Hfrom2 Hup1 Hup2.
  pose proof (UpdateState_ok _ _ _ _ _ Hto Hm Hup1) as [Hkv1 _].
  pose proof (UpdateState_ok _ _ _ _ _ Hto2 Hm2 Hup2) as [Hkv2 _].
  assert (kv (db s2) = <[NewKey getStateKey := data2]> (kv (db s))) as Hkv.
  { rewrite Hkv2, Hkv1. apply insert_insert_eq. }
  repeat split.
  - unfold LoadState.
    rewrite (ds_Get_Some (db s1) _ data), Hun, Hfrom;
      [reflexivity | rewrite Hkv1; apply lookup_insert_eq].
  - unfold LoadState.
    rewrite (ds_Get_Some (db s2) _ data2), Hun2, Hfrom2;
      [reflexivity | rewrite Hkv2; apply lookup_insert_eq].
  - exact Hkv.
  - rewrite Hkv. revert Hup2. unfold UpdateState, ds_Put.
    rewrite Hto2, Hm2.
    destruct (Put_fault (NewKey getStateKey) data2); [discriminate|].
    reflexivity.
Qed.
End ChainState.

(** ** Runs on the concrete instance *)

Lemma key_derivation_witness :
  key_of (BlockRec Sample.hash6) ≠ key_of (CommitRec Sample.hash6)
  ∧ key_of (IndexRec 10) ≠ key_of (ResponsesRec 10)
  ∧ (key_of (IndexRec 10) = key_of (IndexRec 10) → IndexRec 10 = IndexRec 10).
Proof.
  destruct key_derivation as (_ & _ & _ & Hclass & Hinj).
  split; [|split].
  - apply Hclass. discriminate.
  - apply Hclass. discriminate.
  - apply Hinj.
Defined.

Example key_examples :
  getIndexKey 10 = "i/10"
  ∧ getResponsesKey 0 = "r/0"
  ∧ getValidatorsKey 18446744073709551615 = "v/18446744073709551615"
  ∧ getBlockKey Sample.hash6 =
      "b/0606060606060606060606060606060606060606060606060606060606060606"
  ∧ getCommitKey (Sample.payload_hash [xab]) =
      "c/abababababababababababababababababababababababababababababababab"
  ∧ getStateKey = "s/".
Proof. repeat split; vm_compute; reflexivity. Qed.

(** On a commit failure the batch has all three writes staged: [SaveBlock]
    returns the wrapped commit error after [Commit], nothing is visible, and
    no [Discard] is issued. *)
Example SaveBlock_commit_failure :
  let r := @SaveBlock Sample.types Sample.badger_commit_fails Sample.store0
             Sample.block10 Sample.commit10 in
  snd r = Some (fmt_Errorf "failed to commit transaction"
                  (errors_New "Transaction Conflict. Please retry"))
  ∧ kv (db (fst r)) = ∅
  ∧ last (txn_calls (db (fst r))) = Some CallTxnCommit
  ∧ CallTxnDiscard ∉ txn_calls (db (fst r)).
Proof.
  repeat split; try (vm_compute; reflexivity).
  rewrite list_elem_of_In. vm_compute.
  intros Hin. repeat destruct Hin as [Hin|Hin]; first [discriminate Hin | exact Hin].
Qed.

Lemma sample_keys_apart :
  @NewKey_separates Sample.badger
    [BlockRec (Sample.payload_hash Sample.block10);
     CommitRec (Sample.payload_hash Sample.block10);
     IndexRec 10].
Proof.
  intros r1 r2 H1 H2.
  rewrite !elem_of_cons, elem_of_nil in H1, H2.
  destruct H1 as [->|[->|[->|[]]]], H2 as [->|[->|[->|[]]]];
    intros Heq; first [reflexivity | vm_compute in Heq; discriminate Heq].
Defined.

Lemma SaveBlock_Load_roundtrip_witness :
  let s' := fst (@SaveBlock Sample.types Sample.badger Sample.store0
                   Sample.block10 Sample.commit10) in
  @LoadBlock Sample.types Sample.badger s' 10 = (Some Sample.block10, None)
  ∧ @LoadBlockByHash Sample.types Sample.badger s'
      (Sample.payload_hash Sample.block10) = (Some Sample.block10, None)
  ∧ @LoadCommit Sample.types Sample.badger s' 10 = (Some Sample.commit10, None)
  ∧ @LoadCommitByHash Sample.types Sample.badger s'
      (Sample.payload_hash Sample.block10) = (Some Sample.commit10, None).
Proof.
  pose proof (@SaveBlock_Load_roundtrip Sample.types Sample.badger
                Sample.store0 _ Sample.block10 Sample.commit10
                sample_keys_apart eq_refl eq_refl eq_refl)
    as (H1 & H2 & H3 & H4 & _).
  exact (conj H1 (conj H2 (conj H3 H4))).
Defined.

Lemma load_failure_kinds_witness :
  fails_NotFound (@LoadBlock Sample.types Sample.badger Sample.store0 11)
  ∧ fails_NotFound (@LoadCommit Sample.types Sample.badger Sample.store0 11)
  ∧ fails_NotFound (@LoadBlock Sample.types Sample.badger Sample.store_dangling 7)
  ∧ fails_NotFound (@LoadCommit Sample.types Sample.badger Sample.store_dangling 7)
  ∧ fails_NotFound (@LoadBlockResponses Sample.types Sample.badger Sample.store0 11)
  ∧ fails_NotFound (@LoadValidators Sample.types Sample.badger Sample.store0 11)
  ∧ fails_InvalidHashLength
      (@LoadBlock Sample.types Sample.badger Sample.store_corrupt 5)
  ∧ fails_InvalidHashLength
      (@LoadCommit Sample.types Sample.badger Sample.store_corrupt 5).
Proof.
  destruct (@load_failure_kinds Sample.types Sample.badger Sample.store0 11)
    as (Hidx & _ & _ & Hresp & Hval & _).
  destruct (@load_failure_kinds Sample.types Sample.badger
              Sample.store_dangling 7) as (_ & Hblk & Hcmt & _).
  destruct (@load_failure_kinds Sample.types Sample.badger
              Sample.store_corrupt 5) as (_ & _ & _ & _ & _ & Hbad).
  destruct (Hidx eq_refl) as [Hb Hc].
  destruct (Hbad [x01; x02] eq_refl) as [Hbb Hbc]; [simpl; lia|].
  repeat apply conj; try assumption.
  - exact (Hblk Sample.hash6 eq_refl eq_refl).
  - exact (Hcmt Sample.hash6 eq_refl eq_refl).
  - exact (Hresp eq_refl).
  - exact (Hval eq_refl).
Defined.

Lemma decode_failure_results_witness :
  @LoadBlockResponses Sample.types Sample.badger Sample.store_corrupt 6 =
    (Some [], Some (fmt_Errorf "failed to unmarshal data"
                      (errors_New "unexpected EOF")))
  ∧ @LoadBlock Sample.types Sample.badger Sample.store_corrupt 6 =
      (None, Some (fmt_Errorf "failed to unmarshal block data"
                     (errors_New "unexpected EOF")))
  ∧ @LoadCommit Sample.types Sample.badger Sample.store_corrupt 6 =
      (None, Some (fmt_Errorf "failed to marshal Commit into object"
                     (errors_New "unexpected EOF")))
  ∧ @LoadValidators Sample.types Sample.badger Sample.store_corrupt 6 =
      (None, Some (fmt_Errorf "failed to unmarshal to protobuf"
                     (errors_New "unexpected EOF"))).
Proof.
  destruct (@decode_failure_results Sample.types Sample.badger
              Sample.store_corrupt 6 Sample.hash6)
    as (Hresp & Hblk & Hcmt & Hval).
  repeat apply conj.
  - exact (Hresp [] [] _ eq_refl eq_refl).
  - exact (proj2 (Hblk [] [] _ eq_refl eq_refl) eq_refl).
  - exact (proj2 (Hcmt [] [] _ eq_refl eq_refl) eq_refl).
  - exact (Hval [] [] _ eq_refl eq_refl).
Defined.

Lemma UpdateState_LoadState_roundtrip_witness :
  let s1 := fst (@UpdateState Sample.types Sample.badger Sample.store0 5%Z) in
  let s2 := fst (@UpdateState Sample.types Sample.badger s1 9%Z) in
  snd (@LoadState Sample.types Sample.badger s1) = (5%Z, None)
  ∧ snd (@LoadState Sample.types Sample.badger s2) = (9%Z, None)
  ∧ kv (db s2) = <[Sample.rooted getStateKey := [x09]]> ∅.
Proof.
  pose proof (@UpdateState_LoadState_roundtrip Sample.types Sample.badger
                Sample.store0 _ _ 5%Z 9%Z 5%Z 9%Z [x05] [x09]
                eq_refl eq_refl eq_refl eq_refl eq_refl eq_refl eq_refl eq_refl
                eq_refl eq_refl) as (H1 & H2 & H3 & _).
  exact (conj H1 (conj H2 H3)).
Defined.

(** * Further properties of the store *)

(** ** The sample datastore keeps the store's keys apart *)

Lemma trim_slash_no_slash (s : string) :
  s ≠ "" →
  Forall (λ c, c ≠ "/"%char) (list_ascii_of_string s) →
  Sample.trim_slash s = s.
Proof.
  induction s as [|c rest IH]; [done|].
  intros _ Hall. simpl in Hall. apply Forall_cons in Hall as [Hc Hrest].
  destruct rest as [|c' rest'].
  - simpl. destruct (Ascii.eqb_spec c "/"); [contradiction|reflexivity].
  - change (Sample.trim_slash (String c (String c' rest')))
      with (String c (Sample.trim_slash (String c' rest'))).
    rewrite IH; [reflexivity|discriminate|assumption].
Qed.

Lemma rooted_prefixed (a : ascii) (body : string) :
  body ≠ "" →
  Forall (λ c, c ≠ "/"%char) (list_ascii_of_string body) →
  Sample.rooted (String a (String "/" body)) =
    String "/" (String a (String "/" body)).
Proof.
  intros Hne Hall. unfold Sample.rooted.
  destruct body as [|c rest]; [done|].
  change (Sample.trim_slash (String a (String "/" (String c rest))))
    with (String a (String "/" (Sample.trim_slash (String c rest)))).
  rewrite trim_slash_no_slash by assumption. reflexivity.
Qed.

Lemma pretty_N_go_length (x : N) (s : string) :
  (String.length s ≤ String.length (pretty_N_go x s))%nat.
Proof.
  revert s. induction (N.lt_wf_0 x) as [x _ IH]; intros s.
  destruct (decide (0 < x)) as [Hpos|Hz].
  - rewrite pretty_N_go_step by assumption.
    etransitivity; [|apply IH, N.div_lt; lia]. simpl. lia.
  - replace x with 0 by lia. rewrite pretty_N_go_0. lia.
Qed.

Lemma FormatUint_nonempty (i : N) : FormatUint i ≠ "".
Proof.
  unfold FormatUint, pretty, pretty_N. case_decide; [discriminate|].
  rewrite pretty_N_go_step by lia.
  intros Heq.
  pose proof (pretty_N_go_length (i `div` 10)
                (String (pretty_N_char (i `mod` 10)) "")) as Hlen.
  rewrite Heq in Hlen. simpl in Hlen. lia.
Qed.

Lemma FormatUint_no_slash (i : N) :
  Forall (λ c, c ≠ "/"%char) (list_ascii_of_string (FormatUint i)).
Proof.
  eapply Forall_impl; [apply FormatUint_digits|].
  intros c Hc ->. discriminate Hc.
Qed.

Lemma EncodeToString_no_slash (src : bytes) :
  Forall (λ c, c ≠ "/"%char) (list_ascii_of_string (EncodeToString src)).
Proof.
  eapply Forall_impl; [apply EncodeToString_lower_hex|].
  intros c Hc ->. discriminate Hc.
Qed.

Lemma hash_hex_nonempty (hash : Hash32) : EncodeToString (hash_bytes hash) ≠ "".
Proof.
  intros Heq. pose proof (EncodeToString_length (hash_bytes hash)) as Hlen.
  rewrite Heq, (hash_len hash) in Hlen. discriminate Hlen.
Qed.

Lemma rooted_key_of (r : record_id) :
  Sample.rooted (key_of r) =
    match r with
    | StateRec => "/s"
    | _ => "/" +:+ key_of r
    end.
Proof.
  destruct r; try reflexivity; cbn;
    apply rooted_prefixed;
    auto using hash_hex_nonempty, EncodeToString_no_slash,
      FormatUint_nonempty, FormatUint_no_slash.
Qed.

Lemma rooted_injective (r1 r2 : record_id) :
  Sample.rooted (key_of r1) = Sample.rooted (key_of r2) → r1 = r2.
Proof.
  rewrite !rooted_key_of. intros Heq. apply key_of_inj.
  destruct r1, r2;
    unfold key_of, getBlockKey, getCommitKey, getIndexKey, getStateKey,
      getResponsesKey, getValidatorsKey, blockPrefix, commitPrefix,
      indexPrefix, statePrefix, responsesPrefix, validatorsPrefix in *;
    cbv [String.append] in Heq |- *; try discriminate Heq; try reflexivity;
    injection Heq as Heq; rewrite Heq; reflexivity.
Qed.

(** ** What the save operations write *)

Section Writes.
Context {types : Types} {engine : Engine}.

Lemma with_db_same (s : DefaultStore) : with_db s (db s) = s.
Proof. destruct s; reflexivity. Qed.

Lemma ds_Put_outcome (d d' : Datastore) (key : string) (value : bytes)
    (err : option error) :
  ds_Put d key value = (d', err) →
  match err with
  | None => kv d' = <[key := value]> (kv d) ∧ txn_calls d' = txn_calls d
  | Some _ => d' = d
  end.
Proof.
  unfold ds_Put. destruct (Put_fault key value); intros [= <- <-]; auto.
Qed.

Lemma SaveBlock_error_kv (s s' : DefaultStore) (block : Block)
    (commit : Commit) (e : error) :
  SaveBlock s block commit = (s', Some e) → kv (db s') = kv (db s).
Proof.
  unfold SaveBlock, ds_NewTransaction, txn_Put, txn_Discard, txn_Commit, log,
    with_db.
  intros H. repeat (case_match; simplify_eq/=); reflexivity.
Qed.

Lemma SaveBlock_kv (s : DefaultStore) (block : Block) (commit : Commit) :
  kv (db (fst (SaveBlock s block commit))) = kv (db s)
  ∨ ∃ blockBlob commitBlob,
      kv (db (fst (SaveBlock s block commit))) =
        apply_staged (kv (db s)) (batch_writes block blockBlob commitBlob).
Proof.
  destruct (SaveBlock s block commit) as [s' [e|]] eqn:Hsave.
  - left. exact (SaveBlock_error_kv _ _ _ _ _ Hsave).
  - right. apply SaveBlock_success in Hsave as (bB & cB & _ & _ & Hkv).
    exists bB, cB. exact Hkv.
Qed.

Lemma SaveBlockResponses_kv (s : DefaultStore) (h : N) (r : ABCIResponses) :
  fst (SaveBlockResponses s h r) = s
  ∨ ∃ data,
      kv (db (fst (SaveBlockResponses s h r))) =
        <[NewKey (getResponsesKey h) := data]> (kv (db s)).
Proof.
  unfold SaveBlockResponses.
  destruct (Marshal r) as [data [e|]]; [left; reflexivity|].
  destruct (ds_Put (db s) (NewKey (getResponsesKey h)) data) as [d [e|]] eqn:Hput;
    apply ds_Put_outcome in Hput; simpl.
  - left. subst d. apply with_db_same.
  - right. exists data. apply Hput.
Qed.

Lemma UpdateState_kv (s : DefaultStore) (state : State) :
  fst (UpdateState s state) = s
  ∨ ∃ data,
      kv (db (fst (UpdateState s state))) =
        <[NewKey getStateKey := data]> (kv (db s)).
Proof.
  unfold UpdateState.
  destruct (State_ToProto state) as [pb [e|]]; [left; reflexivity|].
  destruct (Marshal pb) as [data [e|]]; [left; reflexivity|].
  destruct (ds_Put (db s) (NewKey getStateKey) data) as [d [e|]] eqn:Hput;
    apply ds_Put_outcome in Hput; simpl.
  - left. subst d. apply with_db_same.
  - right. exists data. apply Hput.
Qed.

Lemma SaveValidators_kv (s : DefaultStore) (h : N) (v : ValidatorSet) :
  fst (SaveValidators s h v) = s
  ∨ ∃ data,
      kv (db (fst (SaveValidators s h v))) =
        <[NewKey (getValidatorsKey h) := data]> (kv (db s)).
Proof.
  unfold SaveValidators.
  destruct (ValidatorSet_ToProto v) as [pb [e|]]; [left; reflexivity|].
  destruct (Marshal pb) as [data [e|]]; [left; reflexivity|].
  destruct (ds_Put (db s) (NewKey (getValidatorsKey h)) data) as [d [e|]] eqn:Hput;
    apply ds_Put_outcome in Hput; simpl.
  - left. subst d. apply with_db_same.
  - right. exists data. apply Hput.
Qed.

Lemma SetHeight_db (s : DefaultStore) (h : N) : db (SetHeight s h) = db s.
Proof.
  unfold SetHeight, atomic_CompareAndSwapUint64, atomic_LoadUint64.
  rewrite N.eqb_refl. destruct (height s <? h); reflexivity.
Qed.

Lemma LoadState_db (s : DefaultStore) : db (fst (LoadState s)) = db s.
Proof. unfold LoadState. repeat case_match; reflexivity. Qed.

(** The key-value pairs after an operation, at a key it does not write. *)
Lemma run_op_frame (s : DefaultStore) (o : op) (key : string) :
  (∀ r, r ∈ written_records o → NewKey (key_of r) ≠ key) →
  kv (db (run_op s o)) !! key = kv (db s) !! key.
Proof.
  intros Hfresh. destruct o; simpl; try reflexivity.
  - rewrite SetHeight_db. reflexivity.
  - destruct (SaveBlock_kv s block commit) as [->|(bB & cB & ->)];
      [reflexivity|].
    unfold apply_staged, batch_writes. simpl.
    rewrite !lookup_insert_ne; [reflexivity|..]; intros Heq;
      first
        [ solve [apply (Hfresh (IndexRec (Block_Header_Height block)));
                 [simpl; set_solver | exact Heq]]
        | solve [apply (Hfresh (CommitRec (Block_Header_Hash block)));
                 [simpl; set_solver | exact Heq]]
        | solve [apply (Hfresh (BlockRec (Block_Header_Hash block)));
                 [simpl; set_solver | exact Heq]] ].
  - destruct (SaveBlockResponses_kv s h responses) as [->|(data & ->)];
      [reflexivity|].
    rewrite lookup_insert_ne; [reflexivity|].
    apply (Hfresh (ResponsesRec h)); simpl; set_solver.
  - destruct (UpdateState_kv s state) as [->|(data & ->)]; [reflexivity|].
    rewrite lookup_insert_ne; [reflexivity|].
    apply (Hfresh StateRec); simpl; set_solver.
  - rewrite LoadState_db. reflexivity.
  - destruct (SaveValidators_kv s h validatorSet) as [->|(data & ->)];
      [reflexivity|].
    rewrite lookup_insert_ne; [reflexivity|].
    apply (Hfresh (ValidatorsRec h)); simpl; set_solver.
Qed.
End Writes.

Section SingleKeyRecords.
Context {types : Types} {engine : Engine}.

(** X1.  After a successful [SaveBlockResponses h responses], and provided
    [Unmarshal] decodes what [Marshal] encoded, [LoadBlockResponses h]
    returns [responses] without error; a later successful save at the same
    height replaces the record.  The height counter is not touched. *)
Theorem SaveBlockResponses_Load_roundtrip (s s1 s2 : DefaultStore) (h : N)
    (r r2 : ABCIResponses) :
  Unmarshal (fst (Marshal r)) = (r, None) →
  Unmarshal (fst (Marshal r2)) = (r2, None) →
  SaveBlockResponses s h r = (s1, None) →
  SaveBlockResponses s1 h r2 = (s2, None) →
  LoadBlockResponses s1 h = (Some r, None)
  ∧ LoadBlockResponses s2 h = (Some r2, None)
  ∧ Height s2 = Height s.
Proof.
  unfold SaveBlockResponses. intros Hr Hr2.
  destruct (Marshal r) as [data [e|]]; [discriminate|].
  destruct (Marshal r2) as [data2 [e|]]; [discriminate|].
  simpl in Hr, Hr2.
  destruct (ds_Put (db s) _ data) as [d1 err1] eqn:Hput1.
  intros [= <- ->].
  destruct (ds_Put (db (with_db s d1)) _ data2) as [d2 err2] eqn:Hput2.
  intros [= <- ->].
  apply ds_Put_outcome in Hput1 as [Hkv1 _], Hput2 as [Hkv2 _].
  simpl in Hkv2. unfold LoadBlockResponses. repeat split.
  - rewrite (ds_Get_Some _ _ data), Hr; [reflexivity|].
    simpl. rewrite Hkv1. apply lookup_insert_eq.
  - rewrite (ds_Get_Some _ _ data2), Hr2; [reflexivity|].
    simpl. rewrite Hkv2. apply lookup_insert_eq.
Qed.

(** X2.  After a successful [SaveValidators h validatorSet], and provided
    the protobuf [Unmarshal] decodes what [Marshal] encoded,
    [LoadValidators h] returns exactly what [ValidatorSetFromProto] makes
    of the saved set's protobuf form: the set itself when that conversion
    inverts [ToProto]. *)
Theorem SaveValidators_Load_roundtrip (s s' : DefaultStore) (h : N)
    (v : ValidatorSet) (pb : pbValidatorSet) :
  ValidatorSet_ToProto v = (pb, None) →
  Unmarshal (fst (Marshal pb)) = (pb, None) →
  SaveValidators s h v = (s', None) →
  LoadValidators s' h = ValidatorSetFromProto pb
  ∧ (ValidatorSetFromProto pb = (Some v, None) →
     LoadValidators s' h = (Some v, None))
  ∧ Height s' = Height s.
Proof.
  unfold SaveValidators. intros -> Hpb.
  destruct (Marshal pb) as [data [e|]]; [discriminate|]. simpl in Hpb.
  destruct (ds_Put (db s) _ data) as [d err] eqn:Hput.
  intros [= <- ->]. apply ds_Put_outcome in Hput as [Hkv _].
  assert (LoadValidators (with_db s d) h = ValidatorSetFromProto pb) as Hload.
  { unfold LoadValidators.
    rewrite (ds_Get_Some _ _ data), Hpb; [reflexivity|].
    simpl. rewrite Hkv. apply lookup_insert_eq. }
  repeat split; [exact Hload | congruence].
Qed.

(** X10.  When [SaveBlockResponses], [UpdateState] or [SaveValidators]
    returns an error, whether from encoding or from the datastore's [Put],
    the store is exactly the one it was called on. *)
Theorem single_key_save_failure_leaves_store (s s' : DefaultStore) (h : N)
    (e : error) :
  (∀ r, SaveBlockResponses s h r = (s', Some e) → s' = s)
  ∧ (∀ state, UpdateState s state = (s', Some e) → s' = s)
  ∧ (∀ v, SaveValidators s h v = (s', Some e) → s' = s).
Proof.
  repeat apply conj.
  - intros r. unfold SaveBlockResponses.
    destruct (Marshal r) as [data [e1|]]; [intros [= <- _]; reflexivity|].
    destruct (ds_Put (db s) _ data) as [d err] eqn:Hput.
    intros [= <- ->]. apply ds_Put_outcome in Hput as ->. apply with_db_same.
  - intros state. unfold UpdateState.
    destruct (State_ToProto state) as [pb [e1|]];
      [intros [= <- _]; reflexivity|].
    destruct (Marshal pb) as [data [e2|]]; [intros [= <- _]; reflexivity|].
    destruct (ds_Put (db s) _ data) as [d err] eqn:Hput.
    intros [= <- ->]. apply ds_Put_outcome in Hput as ->. apply with_db_same.
  - intros v. unfold SaveValidators.
    destruct (ValidatorSet_ToProto v) as [pb [e1|]];
      [intros [= <- _]; reflexivity|].
    destruct (Marshal pb) as [data [e2|]]; [intros [= <- _]; reflexivity|].
    destruct (ds_Put (db s) _ data) as [d err] eqn:Hput.
    intros [= <- ->]. apply ds_Put_outcome in Hput as ->. apply with_db_same.
Qed.
End SingleKeyRecords.

Section FootprintProperties.
Context {types : Types} {engine : Engine}.

(** X3.  When the datastore keeps the store's keys apart, an operation
    changes no record other than the ones it writes: the stored bytes of
    every other record are the same before and after, and so are the
    results of loading other responses, validator sets, blocks by hash and
    commits by hash. *)
Theorem run_op_footprint (s : DefaultStore) (o : op) :
  NewKey_injective →
  (∀ r, r ∉ written_records o →
        kv (db (run_op s o)) !! NewKey (key_of r) =
          kv (db s) !! NewKey (key_of r))
  ∧ (∀ h, ResponsesRec h ∉ written_records o →
          LoadBlockResponses (run_op s o) h = LoadBlockResponses s h)
  ∧ (∀ h, ValidatorsRec h ∉ written_records o →
          LoadValidators (run_op s o) h = LoadValidators s h)
  ∧ (∀ hash, BlockRec hash ∉ written_records o →
             LoadBlockByHash (run_op s o) hash = LoadBlockByHash s hash)
  ∧ (∀ hash, CommitRec hash ∉ written_records o →
             LoadCommitByHash (run_op s o) hash = LoadCommitByHash s hash).
Proof.
  intros Hinj.
  assert (∀ r, r ∉ written_records o →
               kv (db (run_op s o)) !! NewKey (key_of r) =
                 kv (db s) !! NewKey (key_of r)) as Hframe.
  { intros r Hr. apply run_op_frame. intros r' Hr' Heq.
    apply Hinj in Heq. subst r'. contradiction. }
  split; [exact Hframe|].
  repeat apply conj.
  - intros h Hh. unfold LoadBlockResponses, ds_Get.
    pose proof (Hframe (ResponsesRec h) Hh) as Hk. simpl in Hk.
    rewrite Hk. reflexivity.
  - intros h Hh. unfold LoadValidators, ds_Get.
    pose proof (Hframe (ValidatorsRec h) Hh) as Hk. simpl in Hk.
    rewrite Hk. reflexivity.
  - intros hash Hh. unfold LoadBlockByHash, ds_Get.
    pose proof (Hframe (BlockRec hash) Hh) as Hk. simpl in Hk.
    rewrite Hk. reflexivity.
  - intros hash Hh. unfold LoadCommitByHash, ds_Get.
    pose proof (Hframe (CommitRec hash) Hh) as Hk. simpl in Hk.
    rewrite Hk. reflexivity.
Qed.

Lemma run_op_kv_grows (s : DefaultStore) (o : op) (key : string) :
  is_Some (kv (db s) !! key) → is_Some (kv (db (run_op s o)) !! key).
Proof.
  intros Hsome. destruct o; simpl; try assumption.
  - rewrite SetHeight_db. assumption.
  - destruct (SaveBlock_kv s block commit) as [->|(bB & cB & ->)];
      [assumption|].
    unfold apply_staged, batch_writes. simpl.
    rewrite !lookup_insert_is_Some'. auto.
  - destruct (SaveBlockResponses_kv s h responses) as [->|(data & ->)];
      [assumption|]. rewrite lookup_insert_is_Some'. auto.
  - destruct (UpdateState_kv s state) as [->|(data & ->)];
      [assumption|]. rewrite lookup_insert_is_Some'. auto.
  - rewrite LoadState_db. assumption.
  - destruct (SaveValidators_kv s h validatorSet) as [->|(data & ->)];
      [assumption|]. rewrite lookup_insert_is_Some'. auto.
Qed.

Lemma run_op_index_consistent (s : DefaultStore) (o : op) :
  NewKey_injective →
  index_consistent (db s) → index_consistent (db (run_op s o)).
Proof.
  intros Hinj Hinv h hash Hidx.
  assert ((∀ r, r ∈ written_records o → r ≠ IndexRec h) →
          is_Some (kv (db (run_op s o)) !! NewKey (getBlockKey hash))
          ∧ is_Some (kv (db (run_op s o)) !! NewKey (getCommitKey hash)))
    as Hframe.
  { intros Hne. rewrite run_op_frame in Hidx.
    - destruct (Hinv _ _ Hidx) as [Hb Hc].
      split; apply run_op_kv_grows; assumption.
    - intros r Hr Heq. apply (Hinj r (IndexRec h)) in Heq.
      exact (Hne r Hr Heq). }
  destruct o;
    try (apply Hframe; simpl; intros r Hr ->;
         rewrite ?elem_of_cons, elem_of_nil in Hr;
         repeat destruct Hr as [Hr|Hr]; first [discriminate Hr | exact Hr]).
  destruct (decide (h = Block_Header_Height block)) as [->|Hne].
  - simpl in Hidx |- *.
    destruct (SaveBlock_kv s block commit) as [Hkv|(bB & cB & Hkv)];
      rewrite Hkv in Hidx |- *; [exact (Hinv _ _ Hidx)|].
    unfold apply_staged, batch_writes in Hidx |- *. simpl in Hidx |- *.
    rewrite lookup_insert_eq in Hidx. injection Hidx as Hhash.
    apply Hash32_eq in Hhash. subst hash.
    rewrite !lookup_insert_is_Some'. auto.
  - apply Hframe. simpl. intros r Hr ->.
    rewrite !elem_of_cons, elem_of_nil in Hr.
    repeat destruct Hr as [Hr|Hr]; first [discriminate Hr | congruence | exact Hr].
Qed.

(** X4.  When the datastore keeps the store's keys apart, no sequence of
    store operations breaks the link from the index to the records: if
    every index entry pointed at a stored block and commit before, every
    index entry does afterwards, so whenever [loadHashFromIndex] finds a
    hash, the datastore holds a block and a commit under that hash. *)
Theorem index_consistent_preserved (s : DefaultStore) (os : list op) :
  NewKey_injective →
  index_consistent (db s) →
  index_consistent (db (run_ops s os))
  ∧ ∀ h hash,
      loadHashFromIndex (run_ops s os) h = (hash, None) →
      ∃ blockData commitData,
        ds_Get (db (run_ops s os)) (NewKey (getBlockKey hash)) =
          (blockData, None)
        ∧ ds_Get (db (run_ops s os)) (NewKey (getCommitKey hash)) =
            (commitData, None).
Proof.
  intros Hinj Hinv.
  assert (index_consistent (db (run_ops s os))) as Hfinal.
  { revert s Hinv. induction os as [|o os IH]; intros s Hinv; [exact Hinv|].
    simpl. apply IH. apply run_op_index_consistent; assumption. }
  split; [exact Hfinal|].
  intros h hash. unfold loadHashFromIndex, ds_Get.
  destruct (kv (db (run_ops s os)) !! NewKey (getIndexKey h))
    as [blob|] eqn:Hidx; [|discriminate].
  destruct (decide (length blob = 32%nat)) as [pf|]; [|discriminate].
  intros [= <-].
  destruct (Hfinal h (mkHash32 blob pf) Hidx) as [[bd Hb] [cd Hc]].
  exists bd, cd. rewrite Hb, Hc. split; reflexivity.
Qed.

Lemma index_consistent_empty : index_consistent (mkDatastore ∅ []).
Proof. intros h hash Hidx. simpl in Hidx. rewrite lookup_empty in Hidx. discriminate. Qed.
End FootprintProperties.

(** ** The height counter, further *)

Lemma SetHeight_eq (s : DefaultStore) (h : N) :
  SetHeight s h = mkStore (db s) (N.max (height s) h).
Proof.
  unfold SetHeight, atomic_CompareAndSwapUint64, atomic_LoadUint64.
  rewrite N.eqb_refl. destruct s as [d n]; simpl.
  destruct (N.ltb_spec n h); simpl; f_equal; lia.
Qed.

(** X8.  Offers to the counter commute and are idempotent, and after any
    list of offers the counter is the maximum of its initial value and the
    offers, in whatever order they came; the datastore is not touched. *)
Theorem SetHeight_offers (s : DefaultStore) (a b : N) (hs : list N) :
  SetHeight (SetHeight s a) b = SetHeight (SetHeight s b) a
  ∧ SetHeight (SetHeight s a) a = SetHeight s a
  ∧ Height (foldl SetHeight s hs) = foldl N.max (Height s) hs
  ∧ db (foldl SetHeight s hs) = db s.
Proof.
  repeat apply conj.
  - rewrite !SetHeight_eq. simpl. f_equal. lia.
  - rewrite !SetHeight_eq. simpl. f_equal. lia.
  - revert s. induction hs as [|h hs IH]; intros s; [reflexivity|].
    simpl. rewrite IH. unfold Height, atomic_LoadUint64.
    rewrite SetHeight_max. reflexivity.
  - revert s. induction hs as [|h hs IH]; intros s; [reflexivity|].
    simpl. rewrite IH. apply SetHeight_db.
Qed.

(** X9.  [SetHeight] does not retry its compare-and-swap.  With no other
    writer between its load and its swap it is [SetHeight]; if another
    writer changes the counter in between, the swap fails and the offer is
    dropped, so that after a concurrent lower offer [v] the counter is [v]
    although [h], greater than [v], was offered as well. *)
Theorem SetHeight_interleaved_drops_offer (s : DefaultStore) (h : N)
    (other : DefaultStore → DefaultStore) :
  SetHeight_interleaved s h (λ s', s') = SetHeight s h
  ∧ (height (other s) ≠ height s →
     SetHeight_interleaved s h other = other s)
  ∧ (∀ v, height s < v → v < h →
          Height (SetHeight_interleaved s h (λ s', SetHeight s' v)) = v).
Proof.
  assert (∀ f, height (f s) ≠ height s → SetHeight_interleaved s h f = f s)
    as Hdrop.
  { intros f Hne.
    unfold SetHeight_interleaved, atomic_CompareAndSwapUint64,
      atomic_LoadUint64.
    destruct (height s <? h); [|reflexivity].
    destruct (N.eqb_spec (height (f s)) (height s)); [contradiction|].
    reflexivity. }
  repeat apply conj.
  - reflexivity.
  - apply Hdrop.
  - intros v Hv Hh. rewrite Hdrop.
    + unfold Height, atomic_LoadUint64. rewrite SetHeight_max. lia.
    + rewrite SetHeight_max. lia.
Qed.

Lemma SetHeight_interleaved_drops_offer_witness :
  SetHeight_interleaved Sample.store0 10 (λ s', SetHeight s' 5) =
    SetHeight Sample.store0 5
  ∧ Height (SetHeight_interleaved Sample.store0 10 (λ s', SetHeight s' 5)) = 5.
Proof.
  destruct (SetHeight_interleaved_drops_offer Sample.store0 10
              (λ s', SetHeight s' 5)) as (_ & Hdrop & Hlost).
  split.
  - apply Hdrop. vm_compute. discriminate.
  - apply Hlost; reflexivity.
Defined.

Section LoadStateEdges.
Context {types : Types} {engine : Engine}.

Lemma LoadState_decoded (s : DefaultStore) (blob : bytes) (pb : pbState) :
  kv (db s) !! NewKey getStateKey = Some blob →
  Unmarshal blob = (pb, None) →
  LoadState s =
    (mkStore (db s)
       (uint64_of_int64 (State_LastBlockHeight (fst (State_FromProto pb)))),
     State_FromProto pb).
Proof.
  intros Hget Hun. unfold LoadState.
  rewrite (ds_Get_Some _ _ _ Hget), Hun.
  destruct (State_FromProto pb). reflexivity.
Qed.

(** X5.  [LoadState] on a datastore with no chain state, or with one that
    does not unmarshal, returns the zero state with the wrapped error and
    leaves the store, counter included, as it was.  When the stored state
    unmarshals but [FromProto] reports an error, the error is returned
    unwrapped with the state [FromProto] built, and the counter has
    nevertheless been overwritten from that state. *)
Theorem LoadState_failures (s : DefaultStore) :
  (kv (db s) !! NewKey getStateKey = None →
   LoadState s =
     (s, (State_zero, Some (fmt_Errorf "failed to retrieve state" ErrNotFound))))
  ∧ (∀ blob (pb : pbState) e,
       kv (db s) !! NewKey getStateKey = Some blob →
       Unmarshal blob = (pb, Some e) →
       LoadState s =
         (s, (State_zero,
              Some (fmt_Errorf "failed to unmarshal state from JSON" e))))
  ∧ (∀ blob (pb : pbState) state e,
       kv (db s) !! NewKey getStateKey = Some blob →
       Unmarshal blob = (pb, None) →
       State_FromProto pb = (state, Some e) →
       LoadState s =
         (mkStore (db s) (uint64_of_int64 (State_LastBlockHeight state)),
          (state, Some e))).
Proof.
  repeat apply conj.
  - intros Hget. unfold LoadState. rewrite (ds_Get_None _ _ Hget). reflexivity.
  - intros blob pb e Hget Hun. unfold LoadState.
    rewrite (ds_Get_Some _ _ _ Hget), Hun. reflexivity.
  - intros blob pb state e Hget Hun Hfrom.
    rewrite (LoadState_decoded _ _ _ Hget Hun), Hfrom. reflexivity.
Qed.

(** X14.  The counter [LoadState] stores is the decoded last block height
    modulo 2^64: it is always below 2^64, and a negative int64 height [x]
    becomes the counter [2^64 + x], at least 2^63. *)
Theorem LoadState_counter_wraps (s : DefaultStore) (blob : bytes)
    (pb : pbState) :
  kv (db s) !! NewKey getStateKey = Some blob →
  Unmarshal blob = (pb, None) →
  let x := State_LastBlockHeight (fst (State_FromProto pb)) in
  Z.of_N (Height (fst (LoadState s))) = (x mod 2 ^ 64)%Z
  ∧ Height (fst (LoadState s)) < 2 ^ 64
  ∧ ((- 2 ^ 63 ≤ x < 0)%Z →
     Z.of_N (Height (fst (LoadState s))) = (2 ^ 64 + x)%Z
     ∧ 2 ^ 63 ≤ Height (fst (LoadState s))).
Proof.
  intros Hget Hun x.
  rewrite (LoadState_decoded _ _ _ Hget Hun). simpl.
  unfold Height, atomic_LoadUint64, uint64_of_int64. simpl. fold x.
  pose proof (Z.mod_pos_bound x (2 ^ 64) ltac:(lia)) as Hmod.
  assert (Z.of_N (Z.to_N (x mod 2 ^ 64)) = (x mod 2 ^ 64)%Z) as Hz
    by (rewrite Z2N.id; lia).
  repeat split.
  - exact Hz.
  - apply N2Z.inj_lt. rewrite Hz. simpl. lia.
  - rewrite Hz. rewrite <- (Z.mod_small (2 ^ 64 + x) (2 ^ 64)) by lia.
    rewrite <- (Z.mod_add x 1 (2 ^ 64)) by lia. f_equal. lia.
  - apply N2Z.inj_le. rewrite Hz.
    rewrite <- (Z.mod_add x 1 (2 ^ 64)) by lia.
    rewrite Z.mod_small by lia. simpl. lia.
Qed.

(** X15.  A fresh store opened with [New] on the datastore of a store
    whose [UpdateState state] succeeded starts at height 0 and, after
    [LoadState], returns [state] and is at [state]'s last block height
    (converted to uint64), provided the codecs decode what they encode. *)
Theorem New_LoadState_restores_height (s s1 : DefaultStore) (state : State)
    (pb : pbState) (data : bytes) :
  State_ToProto state = (pb, None) → Marshal pb = (data, None) →
  Unmarshal data = (pb, None) → State_FromProto pb = (state, None) →
  UpdateState s state = (s1, None) →
  Height (New (db s1)) = 0
  ∧ snd (LoadState (New (db s1))) = (state, None)
  ∧ Height (fst (LoadState (New (db s1)))) =
      uint64_of_int64 (State_LastBlockHeight state).
Proof.
  intros Hto Hm Hun Hfrom Hup.
  pose proof (UpdateState_ok _ _ _ _ _ Hto Hm Hup) as [Hkv _].
  assert (kv (db (New (db s1))) !! NewKey getStateKey = Some data) as Hget.
  { simpl. rewrite Hkv. apply lookup_insert_eq. }
  rewrite (LoadState_decoded _ _ _ Hget Hun), Hfrom.
  repeat split.
Qed.
End LoadStateEdges.

(** ** Saving blocks, further *)

Lemma errors_Is_refl (e : error) : errors_Is e e = true.
Proof. destruct e; simpl; try case_decide; congruence. Qed.

Lemma errors_Is_wrap (msg : string) (e target : error) :
  errors_Is e target = true → errors_Is (fmt_Errorf msg e) target = true.
Proof. intros H. simpl. case_decide; [reflexivity|exact H]. Qed.

Lemma errors_Is_multi_l (l r target : error) :
  errors_Is l target = true → errors_Is (multiError l r) target = true.
Proof. intros H. simpl. case_decide; [reflexivity|]. rewrite H. reflexivity. Qed.

Lemma errors_Is_multi_r (l r target : error) :
  errors_Is r target = true → errors_Is (multiError l r) target = true.
Proof.
  intros H. simpl. case_decide; [reflexivity|]. rewrite H.
  apply orb_true_r.
Qed.

Create HintDb errs.
#[local] Hint Resolve errors_Is_refl errors_Is_wrap errors_Is_multi_l
  errors_Is_multi_r : errs.

Section SaveBlockFurther.
Context {types : Types} {engine : Engine}.

Lemma NewKey_ne (r1 r2 : record_id) :
  NewKey_injective → r1 ≠ r2 → NewKey (key_of r1) ≠ NewKey (key_of r2).
Proof. intros Hinj Hne Heq. apply Hne, Hinj, Heq. Qed.

(** X6.  On a datastore that is not a badger3 datastore [SaveBlock] fails
    for every block and commit and returns the store as it was, without a
    call on the engine; once both records are marshalled the error is the
    fixed "failed to retrieve the ds.Datastore implementation". *)
Theorem SaveBlock_unsupported_datastore (s : DefaultStore) (block : Block)
    (commit : Commit) :
  is_badger3 = false →
  fst (SaveBlock s block commit) = s
  ∧ is_Some (snd (SaveBlock s block commit))
  ∧ (snd (MarshalBinary block) = None →
     snd (MarshalBinary commit) = None →
     snd (SaveBlock s block commit) =
       Some (errors_New "failed to retrieve the ds.Datastore implementation")).
Proof.
  intros Hb. unfold SaveBlock. rewrite Hb.
  destruct (MarshalBinary block) as [bB [e1|]];
    [repeat split; eauto; discriminate|].
  destruct (MarshalBinary commit) as [cB [e2|]];
    [repeat split; eauto; discriminate|].
  simpl. repeat split; eauto.
Qed.

(** X13.  The error of a failed [SaveBlock] keeps its engine causes within
    reach of [errors.Is]: the error of every write that failed to stage,
    however many did, and, when all three were staged, the error of the
    failed commit. *)
Theorem SaveBlock_error_causes (s s' : DefaultStore) (block : Block)
    (commit : Commit) (blockBlob commitBlob : bytes) (e : error) :
  let hash := Block_Header_Hash block in
  MarshalBinary block = (blockBlob, None) →
  MarshalBinary commit = (commitBlob, None) →
  is_badger3 = true →
  NewTransaction_fault = None →
  SaveBlock s block commit = (s', Some e) →
  (∀ cause,
     txn_Put_fault 0 (NewKey (getBlockKey hash)) blockBlob = Some cause →
     errors_Is e cause = true)
  ∧ (∀ cause,
       txn_Put_fault 1 (NewKey (getCommitKey hash)) commitBlob = Some cause →
       errors_Is e cause = true)
  ∧ (∀ cause,
       txn_Put_fault 2 (NewKey (getIndexKey (Block_Header_Height block)))
         (hash_bytes hash) = Some cause →
       errors_Is e cause = true)
  ∧ (staging_failed block blockBlob commitBlob = false →
     ∀ cause, txn_Commit_fault = Some cause → errors_Is e cause = true).
Proof.
  intros hash HbB HcB Hbadger Hnew.
  unfold SaveBlock, staging_failed, ds_NewTransaction, txn_Put, txn_Discard,
    txn_Commit, log, with_db.
  rewrite HbB, HcB, Hbadger, Hnew. fold hash.
  cbn [negb puts staged kv txn_calls fst snd].
  destruct (txn_Put_fault 0 (NewKey (getBlockKey hash)) blockBlob)
    as [p1|]; simpl;
    destruct (txn_Put_fault 1 (NewKey (getCommitKey hash)) commitBlob)
      as [p2|]; simpl;
    destruct (txn_Put_fault 2
                (NewKey (getIndexKey (Block_Header_Height block)))
                (hash_bytes hash)) as [p3|]; simpl;
    try (intros [= <- <-]; repeat split; intros; simplify_eq;
         auto 6 with errs).
  destruct txn_Commit_fault as [e4|]; intros [= <- <-].
  repeat split; intros; simplify_eq; auto with errs.
Qed.

(** X12.  [loadHashFromIndex] returns a hash without error exactly when
    the index entry of the height holds the 32 bytes of that hash; with any
    error it returns the zero hash. *)
Theorem loadHashFromIndex_exact (s : DefaultStore) (h : N) :
  (∀ hash,
     loadHashFromIndex s h = (hash, None)
     ↔ kv (db s) !! NewKey (getIndexKey h) = Some (hash_bytes hash))
  ∧ (∀ hash e, loadHashFromIndex s h = (hash, Some e) → hash = zero_hash).
Proof.
  split.
  - intros hash. split; [|apply loadHashFromIndex_ok].
    unfold loadHashFromIndex, ds_Get.
    destruct (kv (db s) !! NewKey (getIndexKey h)) as [blob|]; [|discriminate].
    destruct (decide (length blob = 32%nat)); [|discriminate].
    intros [= <-]. reflexivity.
  - intros hash e. unfold loadHashFromIndex, ds_Get.
    destruct (kv (db s) !! NewKey (getIndexKey h)) as [blob|];
      [|intros [= <- _]; reflexivity].
    destruct (decide (length blob = 32%nat)); [discriminate|].
    intros [= <- _]. reflexivity.
Qed.

(** X11.  Saving the same block and commit a second time changes nothing
    that is stored: when both saves succeed, the key-value pairs after the
    second are those after the first. *)
Theorem SaveBlock_twice_same (s s1 s2 : DefaultStore) (block : Block)
    (commit : Commit) :
  SaveBlock s block commit = (s1, None) →
  SaveBlock s1 block commit = (s2, None) →
  kv (db s2) = kv (db s1) ∧ Height s2 = Height s.
Proof.
  intros H1 H2.
  pose proof (SaveBlock_height s block commit) as Hh1.
  pose proof (SaveBlock_height s1 block commit) as Hh2.
  rewrite H1 in Hh1. rewrite H2 in Hh2. simpl in Hh1, Hh2.
  apply SaveBlock_success in H1 as (bB & cB & HbB & HcB & Hkv1).
  apply SaveBlock_success in H2 as (bB' & cB' & HbB' & HcB' & Hkv2).
  assert (bB' = bB) as -> by congruence.
  assert (cB' = cB) as -> by congruence.
  split; [|unfold Height, atomic_LoadUint64; congruence].
  rewrite Hkv2, Hkv1. unfold apply_staged, batch_writes. simpl.
  apply map_eq. intros key.
  rewrite !lookup_insert. repeat case_decide; reflexivity.
Qed.

(** X7.  When the datastore keeps the store's keys apart, saving a second
    block with another hash at an already indexed height repoints the
    index: loading by height returns the second block and commit, while the
    first block and commit are still returned when loaded by their hash. *)
Theorem SaveBlock_same_height (s s1 s2 : DefaultStore) (b1 b2 : Block)
    (c1 c2 : Commit) :
  NewKey_injective →
  Block_Header_Height b1 = Block_Header_Height b2 →
  Block_Header_Hash b1 ≠ Block_Header_Hash b2 →
  UnmarshalBinary (fst (MarshalBinary b1)) = (b1, None) →
  UnmarshalBinary (fst (MarshalBinary c1)) = (c1, None) →
  UnmarshalBinary (fst (MarshalBinary b2)) = (b2, None) →
  UnmarshalBinary (fst (MarshalBinary c2)) = (c2, None) →
  SaveBlock s b1 c1 = (s1, None) →
  SaveBlock s1 b2 c2 = (s2, None) →
  LoadBlock s2 (Block_Header_Height b1) = (Some b2, None)
  ∧ LoadCommit s2 (Block_Header_Height b1) = (Some c2, None)
  ∧ LoadBlockByHash s2 (Block_Header_Hash b1) = (Some b1, None)
  ∧ LoadCommitByHash s2 (Block_Header_Hash b1) = (Some c1, None).
Proof.
  intros Hinj Hh Hhash Hb1 Hc1 Hb2 Hc2 Hs1 Hs2.
  apply SaveBlock_success in Hs1 as (bB1 & cB1 & HbB1 & HcB1 & Hkv1).
  apply SaveBlock_success in Hs2 as (bB2 & cB2 & HbB2 & HcB2 & Hkv2).
  rewrite HbB1 in Hb1. rewrite HcB1 in Hc1.
  rewrite HbB2 in Hb2. rewrite HcB2 in Hc2. simpl in Hb1, Hc1, Hb2, Hc2.
  set (h := Block_Header_Height b1) in *.
  set (h1 := Block_Header_Hash b1) in *.
  set (h2 := Block_Header_Hash b2) in *.
  unfold apply_staged, batch_writes in Hkv1, Hkv2. simpl in Hkv1, Hkv2.
  rewrite <- Hh in Hkv2.
  fold h h1 in Hkv1. fold h h2 in Hkv2.
  pose proof (NewKey_ne (BlockRec h1) (CommitRec h1) Hinj ltac:(discriminate)).
  pose proof (NewKey_ne (BlockRec h1) (IndexRec h) Hinj ltac:(discriminate)).
  pose proof (NewKey_ne (CommitRec h1) (IndexRec h) Hinj ltac:(discriminate)).
  pose proof (NewKey_ne (BlockRec h2) (CommitRec h2) Hinj ltac:(discriminate)).
  pose proof (NewKey_ne (BlockRec h2) (IndexRec h) Hinj ltac:(discriminate)).
  pose proof (NewKey_ne (CommitRec h2) (IndexRec h) Hinj ltac:(discriminate)).
  pose proof (NewKey_ne (BlockRec h1) (CommitRec h2) Hinj ltac:(discriminate)).
  pose proof (NewKey_ne (CommitRec h1) (BlockRec h2) Hinj ltac:(discriminate)).
  pose proof (NewKey_ne (BlockRec h1) (BlockRec h2) Hinj ltac:(congruence)).
  pose proof (NewKey_ne (CommitRec h1) (CommitRec h2) Hinj ltac:(congruence)).
  simpl in *.
  assert (kv (db s2) !! NewKey (getIndexKey h) = Some (hash_bytes h2)) as Hi
    by (rewrite Hkv2; apply lookup_insert_eq).
  assert (kv (db s2) !! NewKey (getBlockKey h2) = Some bB2) as Hkb2.
  { rewrite Hkv2.
    rewrite lookup_insert_ne, lookup_insert_ne, lookup_insert_eq by congruence.
    reflexivity. }
  assert (kv (db s2) !! NewKey (getCommitKey h2) = Some cB2) as Hkc2.
  { rewrite Hkv2. rewrite lookup_insert_ne, lookup_insert_eq by congruence.
    reflexivity. }
  assert (kv (db s2) !! NewKey (getBlockKey h1) = Some bB1) as Hkb1.
  { rewrite Hkv2, !lookup_insert_ne by congruence.
    rewrite Hkv1.
    rewrite lookup_insert_ne, lookup_insert_ne, lookup_insert_eq by congruence.
    reflexivity. }
  assert (kv (db s2) !! NewKey (getCommitKey h1) = Some cB1) as Hkc1.
  { rewrite Hkv2, !lookup_insert_ne by congruence.
    rewrite Hkv1. rewrite lookup_insert_ne, lookup_insert_eq by congruence.
    reflexivity. }
  unfold LoadBlock, LoadCommit. rewrite (loadHashFromIndex_ok _ _ _ Hi).
  repeat split.
  - eapply LoadBlockByHash_ok; eassumption.
  - eapply LoadCommitByHash_ok; eassumption.
  - eapply LoadBlockByHash_ok; eassumption.
  - eapply LoadCommitByHash_ok; eassumption.
Qed.
End SaveBlockFurther.

(** ** Further runs on the concrete instance *)

Lemma SaveBlockResponses_Load_roundtrip_witness :
  let s1 := fst (@SaveBlockResponses Sample.types Sample.badger
                   Sample.store0 4 [x01]) in
  let s2 := fst (@SaveBlockResponses Sample.types Sample.badger
                   s1 4 [x02; x03]) in
  @LoadBlockResponses Sample.types Sample.badger s1 4 = (Some [x01], None)
  ∧ @LoadBlockResponses Sample.types Sample.badger s2 4 =
      (Some [x02; x03], None)
  ∧ Height s2 = Height Sample.store0.
Proof.
  exact (@SaveBlockResponses_Load_roundtrip Sample.types Sample.badger
           Sample.store0 _ _ 4 [x01] [x02; x03]
           eq_refl eq_refl eq_refl eq_refl).
Defined.

Lemma SaveValidators_Load_roundtrip_witness :
  let s' := fst (@SaveValidators Sample.types Sample.badger
                   Sample.store0 4 [x09]) in
  @LoadValidators Sample.types Sample.badger s' 4 = (Some [x09], None)
  ∧ Height s' = Height Sample.store0.
Proof.
  destruct (@SaveValidators_Load_roundtrip Sample.types Sample.badger
              Sample.store0 _ 4 [x09] [x09] eq_refl eq_refl eq_refl)
    as (_ & Hload & Hheight).
  split; [exact (Hload eq_refl) | exact Hheight].
Defined.

Lemma single_key_save_failure_leaves_store_witness :
  fst (@SaveBlockResponses Sample.types badger_read_only Sample.store0 4 [x01])
    = Sample.store0
  ∧ fst (@UpdateState Sample.types badger_read_only Sample.store0 5%Z)
      = Sample.store0
  ∧ fst (@SaveValidators Sample.types badger_read_only Sample.store0 4 [x09])
      = Sample.store0.
Proof.
  destruct (@single_key_save_failure_leaves_store Sample.types
              badger_read_only Sample.store0
              (fst (@SaveBlockResponses Sample.types badger_read_only
                      Sample.store0 4 [x01]))
              4 (errors_New "read-only datastore")) as (Hr & _ & _).
  destruct (@single_key_save_failure_leaves_store Sample.types
              badger_read_only Sample.store0
              (fst (@UpdateState Sample.types badger_read_only
                      Sample.store0 5%Z))
              4 (errors_New "read-only datastore")) as (_ & Hs & _).
  destruct (@single_key_save_failure_leaves_store Sample.types
              badger_read_only Sample.store0
              (fst (@SaveValidators Sample.types badger_read_only
                      Sample.store0 4 [x09]))
              4 (errors_New "read-only datastore")) as (_ & _ & Hv).
  repeat apply conj.
  - exact (Hr [x01] eq_refl).
  - exact (Hs 5%Z eq_refl).
  - exact (Hv [x09] eq_refl).
Defined.

Lemma not_written_by_SaveBlock10 (r : record_id) :
  r = ResponsesRec 10 ∨ r = ValidatorsRec 10 ∨ r = StateRec
  ∨ r = BlockRec Sample.hash6 ∨ r = CommitRec Sample.hash6 →
  r ∉ @written_records Sample.types
        (@OpSaveBlock Sample.types Sample.block10 Sample.commit10).
Proof.
  intros Hr Hin. simpl in Hin. rewrite !elem_of_cons, elem_of_nil in Hin.
  destruct Hin as [Hin|[Hin|[Hin|[]]]];
    destruct Hr as [->|[->|[->|[->| ->]]]]; try discriminate Hin;
    injection Hin as Hin; apply (f_equal hash_bytes) in Hin;
    vm_compute in Hin; discriminate Hin.
Defined.

Lemma run_op_footprint_witness :
  let o := @OpSaveBlock Sample.types Sample.block10 Sample.commit10 in
  @LoadBlockResponses Sample.types Sample.badger
    (@run_op Sample.types Sample.badger Sample.store_corrupt o) 10 =
    @LoadBlockResponses Sample.types Sample.badger Sample.store_corrupt 10
  ∧ @LoadValidators Sample.types Sample.badger
      (@run_op Sample.types Sample.badger Sample.store_corrupt o) 10 =
      @LoadValidators Sample.types Sample.badger Sample.store_corrupt 10
  ∧ @LoadBlockByHash Sample.types Sample.badger
      (@run_op Sample.types Sample.badger Sample.store_corrupt o) Sample.hash6 =
      @LoadBlockByHash Sample.types Sample.badger Sample.store_corrupt
        Sample.hash6
  ∧ @LoadCommitByHash Sample.types Sample.badger
      (@run_op Sample.types Sample.badger Sample.store_corrupt o) Sample.hash6 =
      @LoadCommitByHash Sample.types Sample.badger Sample.store_corrupt
        Sample.hash6
  ∧ kv (db (@run_op Sample.types Sample.badger Sample.store_corrupt o))
      !! Sample.rooted getStateKey =
      kv (db Sample.store_corrupt) !! Sample.rooted getStateKey.
Proof.
  destruct (@run_op_footprint Sample.types Sample.badger Sample.store_corrupt
              (@OpSaveBlock Sample.types Sample.block10 Sample.commit10) rooted_injective)
    as (Hkv & Hr & Hv & Hb & Hc).
  repeat apply conj.
  - apply Hr, not_written_by_SaveBlock10. auto.
  - apply Hv, not_written_by_SaveBlock10. auto.
  - apply Hb, not_written_by_SaveBlock10. auto.
  - apply Hc, not_written_by_SaveBlock10. auto 6.
  - apply (Hkv StateRec), not_written_by_SaveBlock10. auto.
Defined.

Lemma index_consistent_preserved_witness :
  let s' := @run_ops Sample.types Sample.badger Sample.store0
              [@OpSaveBlock Sample.types Sample.block10 Sample.commit10;
               @OpUpdateState Sample.types 10%Z;
               @OpSaveBlock Sample.types other_block10 other_commit10] in
  @index_consistent Sample.badger (db s')
  ∧ ∃ blockData commitData,
      @ds_Get (db s')
        (Sample.rooted (getBlockKey (Sample.payload_hash other_block10))) =
        (blockData, None)
      ∧ @ds_Get (db s')
          (Sample.rooted (getCommitKey (Sample.payload_hash other_block10))) =
          (commitData, None).
Proof.
  destruct (@index_consistent_preserved Sample.types Sample.badger
              Sample.store0
              [@OpSaveBlock Sample.types Sample.block10 Sample.commit10;
               @OpUpdateState Sample.types 10%Z;
               @OpSaveBlock Sample.types other_block10 other_commit10]
              rooted_injective index_consistent_empty) as [Hinv Hload].
  split; [exact Hinv|].
  apply (Hload 10 (Sample.payload_hash other_block10)).
  apply (@loadHashFromIndex_ok Sample.badger). reflexivity.
Defined.

Lemma LoadState_failures_witness :
  @LoadState Sample.types Sample.badger Sample.store0 =
    (Sample.store0,
     (0%Z, Some (fmt_Errorf "failed to retrieve state" ErrNotFound)))
  ∧ @LoadState Sample.types Sample.badger store_state_corrupt =
      (store_state_corrupt,
       (0%Z, Some (fmt_Errorf "failed to unmarshal state from JSON"
                     (errors_New "proto: illegal length"))))
  ∧ @LoadState signed_types Sample.badger store_state_negative =
      (mkStore (db store_state_negative) 18446744073709551614,
       ((-2)%Z, Some (errors_New "negative last block height"))).
Proof.
  destruct (@LoadState_failures Sample.types Sample.badger Sample.store0)
    as (Hmissing & _ & _).
  destruct (@LoadState_failures Sample.types Sample.badger store_state_corrupt)
    as (_ & Hcorrupt & _).
  destruct (@LoadState_failures signed_types Sample.badger
              store_state_negative) as (_ & _ & Hfrom).
  repeat apply conj.
  - exact (Hmissing eq_refl).
  - exact (Hcorrupt [x01; x02] 0%Z _ eq_refl eq_refl).
  - exact (Hfrom [xfe] (-2)%Z (-2)%Z _ eq_refl eq_refl eq_refl).
Defined.

Lemma LoadState_counter_wraps_witness :
  Z.of_N (Height (fst (@LoadState signed_types Sample.badger
                         store_state_negative))) = (2 ^ 64 + -2)%Z
  ∧ 2 ^ 63 ≤ Height (fst (@LoadState signed_types Sample.badger
                            store_state_negative)).
Proof.
  destruct (@LoadState_counter_wraps signed_types Sample.badger
              store_state_negative [xfe] (-2)%Z eq_refl eq_refl)
    as (_ & _ & Hneg).
  apply Hneg. simpl. lia.
Defined.

Lemma New_LoadState_restores_height_witness :
  let s1 := fst (@UpdateState Sample.types Sample.badger
                   (mkStore Sample.empty_ds 42) 5%Z) in
  Height (New (db s1)) = 0
  ∧ snd (@LoadState Sample.types Sample.badger (New (db s1))) = (5%Z, None)
  ∧ Height (fst (@LoadState Sample.types Sample.badger (New (db s1)))) = 5.
Proof.
  exact (@New_LoadState_restores_height Sample.types Sample.badger
           (mkStore Sample.empty_ds 42) _ 5%Z 5%Z [x05]
           eq_refl eq_refl eq_refl eq_refl eq_refl).
Defined.

Lemma SaveBlock_unsupported_datastore_witness :
  fst (@SaveBlock Sample.types map_datastore Sample.store0
         Sample.block10 Sample.commit10) = Sample.store0
  ∧ snd (@SaveBlock Sample.types map_datastore Sample.store0
           Sample.block10 Sample.commit10) =
      Some (errors_New "failed to retrieve the ds.Datastore implementation").
Proof.
  destruct (@SaveBlock_unsupported_datastore Sample.types map_datastore
              Sample.store0 Sample.block10 Sample.commit10 eq_refl)
    as (Hstore & _ & Herr).
  split; [exact Hstore | exact (Herr eq_refl eq_refl)].
Defined.

Lemma SaveBlock_error_causes_witness :
  let e := snd (@SaveBlock Sample.types badger_two_puts_fail Sample.store0
                  Sample.block10 Sample.commit10) in
  ∃ err, e = Some err
         ∧ errors_Is err (errors_New "first write refused") = true
         ∧ errors_Is err (errors_New "third write refused") = true.
Proof.
  eexists. split; [reflexivity|].
  destruct (@SaveBlock_error_causes Sample.types badger_two_puts_fail
              Sample.store0 _ Sample.block10 Sample.commit10
              Sample.block10 Sample.commit10 _
              eq_refl eq_refl eq_refl eq_refl eq_refl)
    as (H1 & _ & H3 & _).
  split; [exact (H1 _ eq_refl) | exact (H3 _ eq_refl)].
Defined.

Lemma loadHashFromIndex_exact_witness :
  @loadHashFromIndex Sample.badger Sample.store_dangling 7 =
    (Sample.hash6, None)
  ∧ fst (@loadHashFromIndex Sample.badger Sample.store_corrupt 5) = zero_hash.
Proof.
  destruct (@loadHashFromIndex_exact Sample.badger Sample.store_dangling 7)
    as [Hok _].
  destruct (@loadHashFromIndex_exact Sample.badger Sample.store_corrupt 5)
    as [_ Herr].
  split.
  - apply Hok. reflexivity.
  - apply (Herr _ errInvalidHashLength). reflexivity.
Defined.

Lemma SaveBlock_twice_same_witness :
  let s1 := fst (@SaveBlock Sample.types Sample.badger Sample.store0
                   Sample.block10 Sample.commit10) in
  let s2 := fst (@SaveBlock Sample.types Sample.badger s1
                   Sample.block10 Sample.commit10) in
  kv (db s2) = kv (db s1) ∧ Height s2 = Height Sample.store0.
Proof.
  exact (@SaveBlock_twice_same Sample.types Sample.badger Sample.store0 _ _
           Sample.block10 Sample.commit10 eq_refl eq_refl).
Defined.

Lemma other_block10_hash :
  @Block_Header_Hash Sample.types Sample.block10 ≠
    @Block_Header_Hash Sample.types other_block10.
Proof.
  intros Heq. apply (f_equal hash_bytes) in Heq. vm_compute in Heq.
  discriminate Heq.
Defined.

Lemma SaveBlock_same_height_witness :
  let s1 := fst (@SaveBlock Sample.types Sample.badger Sample.store0
                   Sample.block10 Sample.commit10) in
  let s2 := fst (@SaveBlock Sample.types Sample.badger s1
                   other_block10 other_commit10) in
  @LoadBlock Sample.types Sample.badger s2 10 = (Some other_block10, None)
  ∧ @LoadCommit Sample.types Sample.badger s2 10 = (Some other_commit10, None)
  ∧ @LoadBlockByHash Sample.types Sample.badger s2
      (Sample.payload_hash Sample.block10) = (Some Sample.block10, None)
  ∧ @LoadCommitByHash Sample.types Sample.badger s2
      (Sample.payload_hash Sample.block10) = (Some Sample.commit10, None).
Proof.
  exact (@SaveBlock_same_height Sample.types Sample.badger Sample.store0 _ _
           Sample.block10 other_block10 Sample.commit10 other_commit10
           rooted_injective eq_refl other_block10_hash
           eq_refl eq_refl eq_refl eq_refl eq_refl eq_refl).
Defined.

(** ** The shape of load results *)

Section LoadShape.
Context {types : Types} {engine : Engine}.




End LoadShape.
